(** * The CEL conformance server: value adapter, status translator, handlers

    A shallow embedding of [server/server.go] (package [server]): the
    handlers [Parse], [Check] and [Eval], the conversion between [ref.Val] and
    [exprpb.ExprValue] ([RefValueToExprValue], [ExprValueToRefValue]), and
    the translation of diagnostics to [rpcpb.Status] messages
    ([ErrToStatus], [appendErrors]).

    Conventions of the embedding.
    - A Go result pair [(v, err)] is a [go_result]: the two components are
      options, [None] standing for Go's [nil]; a run that panics is [Panic].
    - Go's [int], [int32], [int64] and [uint64] are [Z]; a narrowing
      conversion is written out ([int32]).
    - Go strings are [string] (a sequence of bytes).
    - The packages [codes] and [status] of gRPC are modelled by what their
      functions return.
    - The expression engine (package [cel]) is not part of [server.go]: its
      types are section variables and its calls are events, answered by an
      [oracle] when a handler is run.
    - An engine call is taken to return. The handlers drop the error of
      [cel.NewEnv] and [cel.NewCustomEnv]; when the construction fails the
      environment is [nil] and the methods called on it panic inside the
      engine, which a run against an [oracle] does not show. The properties
      of [Check] and [Eval] that go through such a call are stated for an
      environment that was built or for an engine call that answered. *)

From Stdlib Require Import ZArith String Ascii List Bool Lia DecimalString.
From stdpp Require Import base strings gmap.
Import ListNotations.

Local Open Scope Z_scope.
Local Open Scope string_scope.
Local Open Scope list_scope.

Set Implicit Arguments.
Set Warnings "-register-all".

(** ** Protocol buffer messages shared by the packages below *)

(** [anypb.Any]: a type URL and the serialized message. *)
Record Any := mkAny { TypeUrl : string; AnyValue : list ascii }.

(** [rpcpb.Status] (google.rpc.Status): an [int32] code, a message and a
    repeated field of details. *)
Record Status := mkStatus {
  Code : Z;
  Message : string;
  Details : list Any
}.

(** ** Package [codes] of gRPC *)
Module codes.
Definition OK : Z := 0.
Definition Canceled : Z := 1.
Definition Unknown : Z := 2.
Definition InvalidArgument : Z := 3.
Definition DeadlineExceeded : Z := 4.
Definition NotFound : Z := 5.
Definition AlreadyExists : Z := 6.
Definition PermissionDenied : Z := 7.
Definition ResourceExhausted : Z := 8.
Definition FailedPrecondition : Z := 9.
Definition Aborted : Z := 10.
Definition OutOfRange : Z := 11.
Definition Unimplemented : Z := 12.
Definition Internal : Z := 13.
Definition Unavailable : Z := 14.
Definition DataLoss : Z := 15.
Definition Unauthenticated : Z := 16.

Definition names : list string :=
  [ "OK"; "Canceled"; "Unknown"; "InvalidArgument"; "DeadlineExceeded";
    "NotFound"; "AlreadyExists"; "PermissionDenied"; "ResourceExhausted";
    "FailedPrecondition"; "Aborted"; "OutOfRange"; "Unimplemented";
    "Internal"; "Unavailable"; "DataLoss"; "Unauthenticated" ].

(** [Code.String]: the name of a known code, ["Code(n)"] otherwise. *)
Definition String (c : Z) : string :=
  let other := "Code(" +:+ NilZero.string_of_int (Z.to_int c) +:+ ")" in
  if (c <? 0)%Z then other else nth (Z.to_nat c) names other.
End codes.

(** ** Go errors

    The two kinds of [error] value the server meets: a plain error, which
    only has a text ([errors.New], [fmt.Errorf]), and gRPC's status error,
    which carries a [Status] and answers [GRPCStatus()]. *)
Inductive error : Type :=
| errorString (text : string)
| statusError (s : Status).

(** [err.Error()]. A status error prints as gRPC formats it. *)
Definition Error (e : error) : string :=
  match e with
  | errorString text => text
  | statusError s =>
      "rpc error: code = " +:+ codes.String (Code s) +:+ " desc = " +:+ Message s
  end.

(** A Go call returning the pair [(v, err)], or panicking. *)
Inductive go_result (A : Type) : Type :=
| Return (v : option A) (err : option error)
| Panic.
Arguments Panic {A}.

(** ** Package [status] of gRPC *)
Module status.

(** [status.New(c, msg)]. *)
Definition New (c : Z) (msg : string) : Status :=
  {| Code := c; Message := msg; Details := [] |}.

(** [s.Err()]: [nil] for an OK status, the status error otherwise. *)
Definition Err (s : Status) : option error :=
  if (Code s =? codes.OK)%Z then None else Some (statusError s).

(** [s.Proto()] returns a copy of the message. *)
Definition Proto (s : Status) : Status := s.

(** [status.FromError(err)] for a non-nil [err]: the status the error
    carries when it has one, else a fresh status with code [Unknown] and
    the error's text; the flag tells which. *)
Definition FromError (err : error) : Status * bool :=
  match err with
  | statusError s => (s, true)
  | errorString _ => (New codes.Unknown (Error err), false)
  end.

(** [status.Convert(err)] drops the flag of [FromError]. The server calls
    it under [err != nil] only. *)
Definition Convert (err : error) : Status := fst (FromError err).

Section WithDetails.
Variable Detail : Type.

(** [ptypes.MarshalAny]: serialization of a detail message; it gives the
    packed message or an error. *)
Variable MarshalAny : Detail -> Any + error.

(** The loop of [WithDetails] over the variadic [details], on the copy [p]
    of the status message. *)
Fixpoint attach (p : Status) (details : list Detail) : Status + error :=
  match details with
  | [] => inl p
  | detail :: rest =>
      match MarshalAny detail with
      | inr err => inr err
      | inl any =>
          attach {| Code := Code p; Message := Message p;
                    Details := Details p ++ [any] |} rest
      end
  end.

(** [s.WithDetails(details...)]: the status with the details appended, or
    an error (and then no status). *)
Definition WithDetails (s : Status) (details : list Detail) : Status + error :=
  if (Code s =? codes.OK)%Z
  then inr (errorString "no error details for status with code OK")
  else attach (Proto s) details.

End WithDetails.
End status.

(** ** Diagnostics of the engine (package [common]) and their wire form *)

(** Modelled from the spec: [common.Location] and [common.Error] are declared
    in package [common], outside [server.go]; a diagnostic has a message and
    a source position with a line and a column, both Go [int]. *)
Record Location := mkLocation {
  Description : string;
  Line : Z;
  Column : Z
}.

Record common_Error := mkError {
  Err_Location : Location;
  Err_Message : string
}.

(** [confpb.IssueDetails_Severity]. *)
Inductive IssueDetails_Severity : Type :=
| IssueDetails_SEVERITY_UNSPECIFIED
| IssueDetails_DEPRECATION
| IssueDetails_WARNING
| IssueDetails_ERROR.

(** [exprpb.SourcePosition]; [Offset], [Line] and [Column] are [int32]. *)
Record SourcePosition := mkSourcePosition {
  Pos_Location : string;
  Pos_Offset : Z;
  Pos_Line : Z;
  Pos_Column : Z
}.

(** [confpb.IssueDetails]; [Position] is a pointer, [Id] an [int64]. *)
Record IssueDetails := mkIssueDetails {
  Severity : IssueDetails_Severity;
  Position : option SourcePosition;
  Id : Z
}.

(** The conversion [int32(x)] of a Go [int]: the low 32 bits, read in two's
    complement. *)
Definition int32 (x : Z) : Z :=
  let low := x mod 2 ^ 32 in
  if (low <? 2 ^ 31)%Z then low else low - 2 ^ 32.

Section StatusTranslator.

(** Serialization of the detail message into an [Any] (done inside
    [WithDetails] by the protobuf runtime). *)
Variable MarshalAny : IssueDetails -> Any + error.

(** The detail message [ErrToStatus] builds; the fields it does not set
    keep their zero value. *)
Definition issueDetail (e : common_Error) (severity : IssueDetails_Severity)
  : IssueDetails :=
  {| Severity := severity;
     Position := Some {| Pos_Location := "";
                         Pos_Offset := 0;
                         Pos_Line := int32 (Line (Err_Location e));
                         Pos_Column := int32 (Column (Err_Location e)) |};
     Id := 0 |}.

(** [ErrToStatus] converts an Error to a Status message with the given
    severity. *)
Definition ErrToStatus (e : common_Error) (severity : IssueDetails_Severity)
  : Status :=
  let detail := issueDetail e severity in
  let s := status.New codes.InvalidArgument (Err_Message e) in
  match status.WithDetails MarshalAny s [detail] with
  | inl sd => status.Proto sd
  | inr _ => status.Proto s
  end.

(** [appendErrors] converts the errors from [errs] to Status messages and
    appends them to the list of issues; the updated list is returned. *)
Definition appendErrors (errs : list common_Error) (issues : list Status)
  : list Status :=
  fold_left (fun issues e => issues ++ [ErrToStatus e IssueDetails_ERROR])
            errs issues.

End StatusTranslator.

(** ** Wire values (package [exprpb]) *)

(** A 64-bit floating point number, kept as its IEEE 754 bit pattern
    ([math.Float64frombits]); the adapter only copies it. *)
Inductive float64 : Type := Float64frombits (b : Z).

(** [exprpb.Value]: the [oneof kind] of a success value. *)
Inductive Value : Type :=
| NullValue
| BoolValue (b : bool)
| Int64Value (i : Z)
| Uint64Value (u : Z)
| DoubleValue (d : float64)
| StringValue (s : string)
| BytesValue (b : list ascii)
| EnumValue (type : string) (value : Z)
| ObjectValue (a : Any)
| MapValue (entries : list (Value * Value))
| ListValue (values : list Value)
| TypeValue (name : string).

(** [exprpb.ErrorSet] and [exprpb.UnknownSet]. *)
Record ErrorSet := mkErrorSet { Errors : list Status }.
Record UnknownSet := mkUnknownSet { Exprs : list Z }.

(** The [oneof kind] of [exprpb.ExprValue]: each wrapper holds a pointer to
    its message, which Go allows to be [nil]. *)
Inductive ExprValue_Kind : Type :=
| ExprValue_Value (v : option Value)
| ExprValue_Error (e : option ErrorSet)
| ExprValue_Unknown (u : option UnknownSet).

(** [exprpb.ExprValue]; [Kind] is [None] when no tag is populated. *)
Record ExprValue := mkExprValue { Kind : option ExprValue_Kind }.

(** The generated getter [ev.GetValue()]. *)
Definition GetValue (ev : ExprValue) : option Value :=
  match Kind ev with
  | Some (ExprValue_Value v) => v
  | _ => None
  end.

(** The generated getter [ev.GetUnknown()]. *)
Definition GetUnknown (ev : ExprValue) : option UnknownSet :=
  match Kind ev with
  | Some (ExprValue_Unknown u) => u
  | _ => None
  end.

(** The error-set value holding the status records [errs]. *)
Definition errorSetValue (errs : list Status) : ExprValue :=
  {| Kind := Some (ExprValue_Error (Some {| Errors := errs |})) |}.

(** The unknown-set value holding the identifiers [ids]. *)
Definition unknownSetValue (ids : list Z) : ExprValue :=
  {| Kind := Some (ExprValue_Unknown (Some {| Exprs := ids |})) |}.

(** ** Host values (packages [ref] and [types]) *)

(** Modelled from the spec: [ref.Val] and its implementations live in
    packages [common/types/ref] and [common/types], outside [server.go]. A
    host value covers the logical space of the success values, plus an error
    variant carrying a message and an unknown variant carrying the
    identifiers of the unresolved sub-expressions. *)
Inductive Val : Type :=
| NullVal
| BoolVal (b : bool)
| IntVal (i : Z)
| UintVal (u : Z)
| DoubleVal (d : float64)
| StringVal (s : string)
| BytesVal (b : list ascii)
| EnumVal (type : string) (value : Z)
| ObjectVal (type : string) (fields : list ascii)
| MapVal (entries : list (Val * Val))
| ListVal (elems : list Val)
| TypeVal (name : string)
| ErrVal (msg : string)
| UnknownVal (ids : list Z).

Module types.

(** Modelled from the spec: [types.IsUnknown] tells the distinguished
    unknown variant from every other host value. *)
Definition IsUnknown (val : Val) : bool :=
  match val with
  | UnknownVal _ => true
  | _ => false
  end.

(** Modelled from the spec: [types.Unknown(ids)] is the unknown value
    carrying [ids]. *)
Definition Unknown (ids : list Z) : Val := UnknownVal ids.

(** Modelled from the spec: [types.NewErr(format)] is the error value whose
    message is [format]; the server passes a text without formatting verbs
    and no operand. *)
Definition NewErr (format : string) : Val := ErrVal format.

(** The type assertion [val.Value().([]int64)]: [None] when the value held
    is not a slice of [int64] (the assertion panics). *)
Definition Value_int64s (val : Val) : option (list Z) :=
  match val with
  | UnknownVal ids => Some ids
  | _ => None
  end.

End types.

(** ** The value adapter of [server.go] *)

Section ValueAdapter.

(** [ref.TypeAdapter], the capability to construct host values. *)
Variable TypeAdapter : Type.

(** [cel.RefValueToValue] and [cel.ValueToRefValue], the conversions of
    success values in package [cel]. *)
Variable RefValueToValue : Val -> go_result Value.
Variable ValueToRefValue : TypeAdapter -> option Value -> go_result Val.

(** [RefValueToExprValue] converts between [ref.Val] and
    [exprpb.ExprValue]. A [nil] result with a [nil] error reaches
    [types.IsUnknown], which calls a method of the [nil] interface. *)
Definition RefValueToExprValue (res : option Val) (err : option error)
  : go_result ExprValue :=
  match err with
  | Some err =>
      let s := status.Proto (status.Convert err) in
      Return (Some {| Kind := Some (ExprValue_Error
                                      (Some {| Errors := [s] |})) |})
             None
  | None =>
      match res with
      | None => Panic
      | Some res =>
          if types.IsUnknown res then
            match types.Value_int64s res with
            | Some ids =>
                Return (Some {| Kind := Some (ExprValue_Unknown
                                                (Some {| Exprs := ids |})) |})
                       None
            | None => Panic
            end
          else
            match RefValueToValue res with
            | Panic => Panic
            | Return _ (Some err) => Return None (Some err)
            | Return v None =>
                Return (Some {| Kind := Some (ExprValue_Value v) |}) None
            end
      end
  end.

(** [ExprValueToRefValue] converts between [exprpb.ExprValue] and
    [ref.Val]. *)
Definition ExprValueToRefValue (adapter : TypeAdapter) (ev : ExprValue)
  : go_result Val :=
  match Kind ev with
  | Some (ExprValue_Value _) => ValueToRefValue adapter (GetValue ev)
  | Some (ExprValue_Error _) =>
      Return (Some (types.NewErr "XXX add details later")) None
  | Some (ExprValue_Unknown _) =>
      match GetUnknown ev with
      | Some u => Return (Some (types.Unknown (Exprs u))) None
      | None => Panic
      end
  | None =>
      Return None
             (status.Err (status.New codes.InvalidArgument
                                     "unknown ExprValue kind"))
  end.

End ValueAdapter.

(** ** The conversions of success values (package [cel]) *)

Module cel.

(** Modelled from the spec: the [ConversionError] of an unrepresentable
    value, naming the offending value. *)
Definition ConversionError (offending : string) : error :=
  errorString ("ConversionError: " +:+ offending).

(** A conversion gives a value or fails with an error, never both. *)
Definition and_then {A B} (r : A + error) (k : A -> B + error) : B + error :=
  match r with
  | inl a => k a
  | inr err => inr err
  end.

(** The Go pair of a conversion's outcome. *)
Definition pair_of {A} (r : A + error) : go_result A :=
  match r with
  | inl a => Return (Some a) None
  | inr err => Return None (Some err)
  end.

(** Conversion of the elements of a sequence, in order; nothing is kept when
    one of them fails. *)
Definition convert_all {A B} (f : A -> B + error) : list A -> list B + error :=
  fix go (l : list A) : list B + error :=
    match l with
    | [] => inl []
    | x :: rest =>
        and_then (f x) (fun y =>
        and_then (go rest) (fun ys => inl (y :: ys)))
    end.

(** Modelled from the spec: the conversion of a host value to a success
    value. A primitive scalar goes to the matching scalar tag with its value
    copied; a list and a map are converted element by element; a typed
    message and an enum carry their type name; a host value with no success
    tag (error, unknown) fails with a [ConversionError]. *)
Fixpoint toValue (res : Val) : Value + error :=
  match res with
  | NullVal => inl NullValue
  | BoolVal b => inl (BoolValue b)
  | IntVal i => inl (Int64Value i)
  | UintVal u => inl (Uint64Value u)
  | DoubleVal d => inl (DoubleValue d)
  | StringVal s => inl (StringValue s)
  | BytesVal b => inl (BytesValue b)
  | EnumVal type value => inl (EnumValue type value)
  | ObjectVal type fields =>
      inl (ObjectValue {| TypeUrl := type; AnyValue := fields |})
  | MapVal entries =>
      and_then
        (convert_all (fun kv : Val * Val =>
                        and_then (toValue (fst kv)) (fun k =>
                        and_then (toValue (snd kv)) (fun v => inl (k, v))))
                     entries)
        (fun es => inl (MapValue es))
  | ListVal elems =>
      and_then (convert_all toValue elems) (fun vs => inl (ListValue vs))
  | TypeVal name => inl (TypeValue name)
  | ErrVal _ => inr (ConversionError "error")
  | UnknownVal _ => inr (ConversionError "unknown")
  end.

(** Modelled from the spec: [cel.RefValueToValue] is in package [cel],
    outside [server.go]; it returns the converted value or the conversion's
    error. *)
Definition RefValueToValue (res : Val) : go_result Value :=
  pair_of (toValue res).

(** Modelled from the spec: the value-construction capability
    [ref.TypeAdapter], a factory for the host realization of lists, maps and
    typed messages. *)
Record TypeAdapter := mkTypeAdapter {
  NewList : list Val -> Val;
  NewMap : list (Val * Val) -> Val;
  NewObject : string -> list ascii -> Val
}.

(** Modelled from the spec: the conversion of a success value to a host
    value; leaf scalars convert directly, lists, maps and messages are built
    through the adapter. *)
Fixpoint toRefValue (adapter : TypeAdapter) (v : Value) : Val + error :=
  match v with
  | NullValue => inl NullVal
  | BoolValue b => inl (BoolVal b)
  | Int64Value i => inl (IntVal i)
  | Uint64Value u => inl (UintVal u)
  | DoubleValue d => inl (DoubleVal d)
  | StringValue s => inl (StringVal s)
  | BytesValue b => inl (BytesVal b)
  | EnumValue type value => inl (EnumVal type value)
  | ObjectValue a => inl (NewObject adapter (TypeUrl a) (AnyValue a))
  | MapValue entries =>
      and_then
        (convert_all (fun kv : Value * Value =>
                        and_then (toRefValue adapter (fst kv)) (fun k =>
                        and_then (toRefValue adapter (snd kv)) (fun v =>
                        inl (k, v))))
                     entries)
        (fun es => inl (NewMap adapter es))
  | ListValue values =>
      and_then (convert_all (toRefValue adapter) values)
               (fun vs => inl (NewList adapter vs))
  | TypeValue name => inl (TypeVal name)
  end.

(** Modelled from the spec: [cel.ValueToRefValue] is in package [cel],
    outside [server.go]. An absent success value is malformed wire input and
    fails with a [ConversionError]. *)
Definition ValueToRefValue (adapter : TypeAdapter) (v : option Value)
  : go_result Val :=
  match v with
  | Some v => pair_of (toRefValue adapter v)
  | None => Return None (Some (ConversionError "absent value"))
  end.

End cel.

(** The representable scalar kinds: null, bool, integer, unsigned integer,
    double, string and byte string. *)
Definition scalar (v : Val) : bool :=
  match v with
  | NullVal | BoolVal _ | IntVal _ | UintVal _ | DoubleVal _
  | StringVal _ | BytesVal _ => true
  | _ => false
  end.

(** ** Calls into the expression engine

    A handler is a program that calls the engine and goes on with the
    engine's answer: [Done] is a finished handler, [Call e k] asks the engine
    for [e] and continues as [k] says. *)

Section Interaction.

Variable E : Type -> Type.

Inductive Engine (A : Type) : Type :=
| Done (a : A)
| Call (X : Type) (e : E X) (k : X -> Engine A).

(** An oracle gives the engine's answer to every call. *)
Definition oracle : Type := forall X, E X -> X.

(** The result of a handler run against an oracle. *)
Fixpoint run (eng : oracle) {A} (p : Engine A) : A :=
  match p with
  | Done a => a
  | Call e k => run eng (k (eng _ e))
  end.

(** The engine calls a handler makes against an oracle, in order. *)
Fixpoint calls (eng : oracle) {A} (p : Engine A) : list {X : Type & E X} :=
  match p with
  | Done _ => []
  | Call e k => existT _ e :: calls eng (k (eng _ e))
  end.

End Interaction.

Arguments Done {E A} a.
Arguments Call {E A X} e k.

(** ** Requests, responses and the engine's interface *)

(** The environment options the handlers pass to [cel.NewEnv]; a message
    type registered with [cel.Types] is named by its full name. *)
Inductive EnvOption : Type :=
| ClearMacros
| Container (name : string)
| Types (messages : list string).

Definition test2pb_TestAllTypes : string :=
  "google.api.expr.test.v1.proto2.TestAllTypes".
Definition test3pb_TestAllTypes : string :=
  "google.api.expr.test.v1.proto3.TestAllTypes".

(** [confpb.ParseRequest]. *)
Record ParseRequest := mkParseRequest {
  CelSource : string;
  SyntaxVersion : string;
  SourceLocation : string;
  DisableMacros : bool
}.

(** The request [req] with its syntax version replaced. *)
Definition withSyntaxVersion (version : string) (req : ParseRequest)
  : ParseRequest :=
  {| CelSource := CelSource req;
     SyntaxVersion := version;
     SourceLocation := SourceLocation req;
     DisableMacros := DisableMacros req |}.

(** [fmt.Errorf] with the two formats the server uses; [%s] prints an error
    operand by its [Error()] text. *)
Module fmt.
Definition Errorf_binding (name : string) (err : error) : error :=
  errorString ("can't convert binding " +:+ name +:+ ": " +:+ Error err).
Definition Errorf_result (err : error) : error :=
  errorString ("con't convert result: " +:+ Error err).
End fmt.

Section Handlers.

(** The engine's types: environment, abstract syntax tree, program and
    issues of package [cel]; the expression messages of [exprpb]; the
    adapter of package [ref]. A value of [Env], [Ast] or [Program] is
    whatever the engine returned. *)
Variables Env Ast Program Issues ParsedExpr CheckedExpr TypeAdapter : Type.

Variable MarshalAny : IssueDetails -> Any + error.

(** [iss.Err()] and [iss.Errors()]. *)
Variable Issues_Err : Issues -> option error.
Variable Issues_Errors : Issues -> list common_Error.

(** [cel.AstToParsedExpr], [cel.ParsedExprToAst], [cel.CheckedExprToAst]
    and [env.TypeAdapter()]. *)
Variable AstToParsedExpr : Ast -> option ParsedExpr * option error.
Variable ParsedExprToAst : option ParsedExpr -> Ast.
Variable CheckedExprToAst : option CheckedExpr -> Ast.
Variable Env_TypeAdapter : Env -> TypeAdapter.

Variable RefValueToValue : Val -> go_result Value.
Variable ValueToRefValue : TypeAdapter -> option Value -> go_result Val.

(** The calls that do the engine's work, each with the type of its answer:
    [cel.NewEnv(opts...)], [env.Parse(txt)], [env.Program(ast)] and
    [prg.Eval(args)] (whose evaluation details the server discards). *)
Inductive engineE : Type -> Type :=
| NewEnv (opts : list EnvOption) : engineE (Env * option error)
| Env_Parse (env : Env) (txt : string) : engineE (Ast * option Issues)
| Env_Program (env : Env) (ast : Ast) : engineE (Program * option error)
| Program_Eval (prg : Program) (args : gmap string (option Val))
  : engineE (option Val * option error).

(** [confpb.ParseResponse]. *)
Record ParseResponse := mkParseResponse {
  Parse_ParsedExpr : option ParsedExpr;
  Parse_Issues : list Status
}.

(** The [oneof expr_kind] of [confpb.EvalRequest]. *)
Inductive EvalRequest_ExprKind : Type :=
| EvalRequest_ParsedExpr (pe : option ParsedExpr)
| EvalRequest_CheckedExpr (ce : option CheckedExpr).

(** [confpb.EvalRequest]; [Bindings] lists the entries of the map in the
    order the [range] statement visits them. *)
Record EvalRequest := mkEvalRequest {
  ExprKind : option EvalRequest_ExprKind;
  Bindings : list (string * ExprValue);
  Eval_Container : string
}.

(** [confpb.EvalResponse]. *)
Record EvalResponse := mkEvalResponse {
  Result : option ExprValue;
  Eval_Issues : list Status
}.

(** [Parse] implements [ConformanceService.Parse]. *)
Definition Parse (req : ParseRequest)
  : Engine engineE (go_result ParseResponse) :=
  if String.eqb (CelSource req) "" then
    let st := status.New codes.InvalidArgument "No source code." in
    Done (Return None (status.Err st))
  else
    let parseOptions := if DisableMacros req then [ClearMacros] else [] in
    Call (NewEnv parseOptions) (fun env_ =>
    let env := fst env_ in
    Call (Env_Parse env (CelSource req)) (fun past_iss =>
    let past := fst past_iss in
    let resp := {| Parse_ParsedExpr := None; Parse_Issues := [] |} in
    let failure :=
      match snd past_iss with
      | None => None
      | Some iss =>
          match Issues_Err iss with
          | None => None
          | Some _ => Some iss
          end
      end in
    let resp :=
      match failure with
      | None =>
          {| Parse_ParsedExpr := fst (AstToParsedExpr past);
             Parse_Issues := Parse_Issues resp |}
      | Some iss =>
          {| Parse_ParsedExpr := Parse_ParsedExpr resp;
             Parse_Issues := appendErrors MarshalAny (Issues_Errors iss)
                                          (Parse_Issues resp) |}
      end in
    Done (Return (Some resp) None))).

(** The loop of [Eval] over the bindings: the arguments when every binding
    converts, else what [Eval] returns at the first one that does not. *)
Fixpoint bindArgs (adapter : TypeAdapter) (bindings : list (string * ExprValue))
  (args : gmap string (option Val))
  : gmap string (option Val) + go_result EvalResponse :=
  match bindings with
  | [] => inl args
  | (name, exprValue) :: rest =>
      match ExprValueToRefValue ValueToRefValue adapter exprValue with
      | Panic => inr Panic
      | Return _ (Some err) =>
          inr (Return None (Some (fmt.Errorf_binding name err)))
      | Return refVal None => bindArgs adapter rest (<[name := refVal]> args)
      end
  end.

(** [Eval] after the program is built: bind, evaluate, convert. *)
Definition evalProgram (env : Env) (prg : Program) (req : EvalRequest)
  : Engine engineE (go_result EvalResponse) :=
  match bindArgs (Env_TypeAdapter env) (Bindings req) ∅ with
  | inr early => Done early
  | inl args =>
      Call (Program_Eval prg args) (fun res_err =>
      match RefValueToExprValue RefValueToValue (fst res_err) (snd res_err) with
      | Panic => Done Panic
      | Return _ (Some err) => Done (Return None (Some (fmt.Errorf_result err)))
      | Return resultExprVal None =>
          Done (Return (Some {| Result := resultExprVal; Eval_Issues := [] |})
                       None)
      end)
  end.

(** The syntax tree [Eval] builds its program from, for either kind of
    expression artifact. *)
Definition artifactAst (kind : EvalRequest_ExprKind) : Ast :=
  match kind with
  | EvalRequest_ParsedExpr pe => ParsedExprToAst pe
  | EvalRequest_CheckedExpr ce => CheckedExprToAst ce
  end.

(** The options [Eval] builds its environment with. *)
Definition evalOptions (req : EvalRequest) : list EnvOption :=
  [Container (Eval_Container req);
   Types [test2pb_TestAllTypes; test3pb_TestAllTypes]].

(** [Eval] implements [ConformanceService.Eval]. *)
Definition Eval (req : EvalRequest) : Engine engineE (go_result EvalResponse) :=
  Call (NewEnv (evalOptions req)) (fun env_ =>
  let env := fst env_ in
  let program (ast : Ast) :=
    Call (Env_Program env ast) (fun prg_err =>
    match snd prg_err with
    | Some err => Done (Return None (Some err))
    | None => evalProgram env (fst prg_err) req
    end) in
  match ExprKind req with
  | Some (EvalRequest_ParsedExpr pe) => program (ParsedExprToAst pe)
  | Some (EvalRequest_CheckedExpr ce) => program (CheckedExprToAst ce)
  | None =>
      let st := status.New codes.InvalidArgument "No expression." in
      Done (Return None (status.Err st))
  end).

End Handlers.

(** ** The handler [Check] *)

Section CheckHandler.

(** The engine's types, as for the other handlers, with the source
    information of a parsed expression ([exprpb.SourceInfo]) and the
    declarations of a type environment ([exprpb.Decl]). *)
Variables Env Ast Issues ParsedExpr CheckedExpr SourceInfo Decl : Type.

Variable MarshalAny : IssueDetails -> Any + error.
Variable Issues_Err : Issues -> option error.
Variable Issues_Errors : Issues -> list common_Error.

(** The field [SourceInfo] of a parsed expression, a pointer. *)
Variable ParsedExpr_SourceInfo : ParsedExpr -> option SourceInfo.

(** [cel.ParsedExprToAst] and [cel.AstToCheckedExpr]. *)
Variable ParsedExprToAst : option ParsedExpr -> Ast.
Variable AstToCheckedExpr : Ast -> option CheckedExpr * option error.

(** The environment options [Check] uses: [cel.StdLib()],
    [cel.Declarations(decls...)], and the options shared with the other
    handlers. *)
Inductive CheckOption : Type :=
| StdLib
| Declarations (decls : list Decl)
| EnvOpt (opt : EnvOption).

(** The calls of [Check] into the engine: [cel.NewCustomEnv(opts...)] and
    [env.Check(ast)]. *)
Inductive checkerE : Type -> Type :=
| NewCustomEnv (opts : list CheckOption) : checkerE (Env * option error)
| Env_Check (env : Env) (ast : Ast) : checkerE (Ast * option Issues).

(** [confpb.CheckRequest]. *)
Record CheckRequest := mkCheckRequest {
  Check_ParsedExpr : option ParsedExpr;
  TypeEnv : list Decl;
  Check_Container : string;
  NoStdEnv : bool
}.

(** [confpb.CheckResponse]. *)
Record CheckResponse := mkCheckResponse {
  Check_CheckedExpr : option CheckedExpr;
  Check_Issues : list Status
}.

(** The options [Check] builds its environment with. *)
Definition checkOptions (req : CheckRequest) : list CheckOption :=
  let checkOptions := [StdLib] in
  let checkOptions := if NoStdEnv req then [] else checkOptions in
  let checkOptions := checkOptions ++ [EnvOpt (Container (Check_Container req))] in
  let checkOptions := checkOptions ++ [Declarations (TypeEnv req)] in
  let checkOptions := checkOptions ++ [EnvOpt (Types [test2pb_TestAllTypes])] in
  let checkOptions := checkOptions ++ [EnvOpt (Types [test3pb_TestAllTypes])] in
  checkOptions.

(** [Check] implements [ConformanceService.Check]. *)
Definition Check (req : CheckRequest)
  : Engine checkerE (go_result CheckResponse) :=
  match Check_ParsedExpr req with
  | None =>
      let st := status.New codes.InvalidArgument "No parsed expression." in
      Done (Return None (status.Err st))
  | Some parsed =>
      match ParsedExpr_SourceInfo parsed with
      | None =>
          let st := status.New codes.InvalidArgument "No source info." in
          Done (Return None (status.Err st))
      | Some _ =>
          Call (NewCustomEnv (checkOptions req)) (fun env_ =>
          let env := fst env_ in
          Call (Env_Check env (ParsedExprToAst (Check_ParsedExpr req)))
               (fun cast_iss =>
          let cast := fst cast_iss in
          let resp := {| Check_CheckedExpr := None; Check_Issues := [] |} in
          let failure :=
            match snd cast_iss with
            | None => None
            | Some iss =>
                match Issues_Err iss with
                | None => None
                | Some _ => Some iss
                end
            end in
          let resp :=
            match failure with
            | None =>
                {| Check_CheckedExpr := fst (AstToCheckedExpr cast);
                   Check_Issues := Check_Issues resp |}
            | Some iss =>
                {| Check_CheckedExpr := Check_CheckedExpr resp;
                   Check_Issues := appendErrors MarshalAny (Issues_Errors iss)
                                                (Check_Issues resp) |}
            end in
          Done (Return (Some resp) None)))
      end
  end.

End CheckHandler.

(** ** A small engine to run the handlers against

    Every engine type is [unit]; the program it builds fails at evaluation
    with a division by zero. *)
Module Tiny.

Definition engine : oracle (engineE unit unit unit unit) :=
  fun X (e : engineE unit unit unit unit X) =>
    match e in engineE _ _ _ _ T return T with
    | @NewEnv _ _ _ _ _ => (tt, None)
    | @Env_Parse _ _ _ _ _ _ => (tt, None)
    | @Env_Program _ _ _ _ _ _ => (tt, None)
    | @Program_Eval _ _ _ _ _ _ =>
        (Some (ErrVal "division by zero"),
         Some (errorString "division by zero"))
    end.

Definition adapter : cel.TypeAdapter :=
  {| cel.NewList := ListVal; cel.NewMap := MapVal; cel.NewObject := ObjectVal |}.

(** A request with a parsed expression and one binding, [x = 7]. *)
Definition request : EvalRequest unit unit :=
  {| ExprKind := Some (EvalRequest_ParsedExpr unit (Some tt));
     Bindings := [("x", {| Kind := Some (ExprValue_Value (Some (Int64Value 7))) |})];
     Eval_Container := "" |}.

(** [Eval] over this engine's types and the conversions of package [cel]. *)
Definition Eval : EvalRequest unit unit
                  -> Engine (engineE unit unit unit unit) (go_result EvalResponse) :=
  @Eval unit unit unit unit unit unit cel.TypeAdapter
        (fun _ => tt) (fun _ => tt) (fun _ => adapter)
        cel.RefValueToValue cel.ValueToRefValue.

End Tiny.

(** ** Sample diagnostics and engines

    Issues are the list of their diagnostics; the engines answer with the
    values they are given. *)
Module Sample.

(** A serialization that keeps the line and the column as two bytes. *)
Definition MarshalAny (d : IssueDetails) : Any + error :=
  match Position d with
  | Some pos =>
      inl {| TypeUrl := "type.googleapis.com/google.api.expr.conformance.v1alpha1.IssueDetails";
             AnyValue := [ascii_of_nat (Z.to_nat (Pos_Line pos));
                          ascii_of_nat (Z.to_nat (Pos_Column pos))] |}
  | None => inr (errorString "proto: no position")
  end.

(** The diagnostic "unexpected token" at line 3, column 5. *)
Definition diagnostic : common_Error :=
  {| Err_Location := {| Description := "<input>"; Line := 3; Column := 5 |};
     Err_Message := "unexpected token" |}.

Definition Issues : Type := list common_Error.

Definition Issues_Err (iss : Issues) : option error :=
  match iss with
  | [] => None
  | e :: _ => Some (errorString ("ERROR: " +:+ Err_Message e))
  end.

Definition Issues_Errors (iss : Issues) : list common_Error := iss.

(** An engine for [Parse] and [Eval] that reports [iss] on parsing, [built]
    on building a program and [out] on evaluation. *)
Definition engine (iss : option Issues) (built : option error)
  (out : option Val * option error)
  : oracle (engineE unit unit unit Issues) :=
  fun X (e : engineE unit unit unit Issues X) =>
    match e in engineE _ _ _ _ T return T with
    | @NewEnv _ _ _ _ _ => (tt, None)
    | @Env_Parse _ _ _ _ _ _ => (tt, iss)
    | @Env_Program _ _ _ _ _ _ => (tt, built)
    | @Program_Eval _ _ _ _ _ _ => out
    end.

(** An engine for [Check] that reports [iss] on checking. *)
Definition checker (iss : option Issues)
  : oracle (checkerE unit unit Issues unit) :=
  fun X (e : checkerE unit unit Issues unit X) =>
    match e in checkerE _ _ _ _ T return T with
    | @NewCustomEnv _ _ _ _ _ => (tt, None)
    | @Env_Check _ _ _ _ _ _ => (tt, iss)
    end.

(** The handlers over these types. *)
Definition Parse : ParseRequest
                   -> Engine (engineE unit unit unit Issues)
                             (go_result (ParseResponse unit)) :=
  @Parse unit unit unit Issues unit MarshalAny Issues_Err Issues_Errors
         (fun _ => (Some tt, None)).

Definition Eval : EvalRequest unit unit
                  -> Engine (engineE unit unit unit Issues)
                            (go_result EvalResponse) :=
  @Eval unit unit unit Issues unit unit cel.TypeAdapter
        (fun _ => tt) (fun _ => tt) (fun _ => Tiny.adapter)
        cel.RefValueToValue cel.ValueToRefValue.

Definition Check : CheckRequest unit unit
                   -> Engine (checkerE unit unit Issues unit)
                             (go_result (CheckResponse unit)) :=
  @Check unit unit Issues unit unit unit unit MarshalAny Issues_Err
         Issues_Errors (fun _ => Some tt) (fun _ => tt)
         (fun _ => (Some tt, None)).

(** Requests for the three handlers. *)
Definition parseRequest : ParseRequest :=
  {| CelSource := "1 +"; SyntaxVersion := ""; SourceLocation := "";
     DisableMacros := true |}.

Definition checkRequest : CheckRequest unit unit :=
  {| Check_ParsedExpr := Some tt; TypeEnv := []; Check_Container := "";
     NoStdEnv := false |}.

Definition evalRequest (bindings : list (string * ExprValue))
  : EvalRequest unit unit :=
  {| ExprKind := Some (EvalRequest_CheckedExpr unit (Some tt));
     Bindings := bindings; Eval_Container := "" |}.

Definition int64Binding (i : Z) : ExprValue :=
  {| Kind := Some (ExprValue_Value (Some (Int64Value i))) |}.

End Sample.

(** A serialization that writes the line and the column of the position in
    decimal, separated by a colon. *)
Definition marshalDecimal (d : IssueDetails) : Any + error :=
  match Position d with
  | Some pos =>
      inl {| TypeUrl := "type.googleapis.com/google.api.expr.conformance.v1alpha1.IssueDetails";
             AnyValue :=
               list_ascii_of_string
                 (NilZero.string_of_int (Z.to_int (Pos_Line pos))
                  +:+ ":"
                  +:+ NilZero.string_of_int (Z.to_int (Pos_Column pos))) |}
  | None => inr (errorString "proto: no position")
  end.

(** * Properties *)

(** ** The status translator *)

(** [int32] leaves a number that fits in 32 bits unchanged. *)
Lemma int32_in_range (x : Z) : - 2 ^ 31 <= x < 2 ^ 31 -> int32 x = x.
Proof.
  intros Hx. unfold int32.
  destruct (Z_lt_le_dec x 0) as [Hneg | Hpos].
  - replace (x mod 2 ^ 32) with (x + 2 ^ 32).
    + destruct (Z.ltb_spec (x + 2 ^ 32) (2 ^ 31)); lia.
    + apply Z.mod_unique with (q := -1); lia.
  - rewrite Z.mod_small by lia.
    destruct (Z.ltb_spec x (2 ^ 31)); lia.
Qed.

(** [int32 x] is the one number of the 32-bit signed range that differs from
    [x] by a multiple of 2^32. *)
Lemma int32_spec (x : Z) :
  - 2 ^ 31 <= int32 x < 2 ^ 31 /\ (int32 x - x) mod 2 ^ 32 = 0.
Proof.
  unfold int32.
  pose proof (Z.mod_pos_bound x (2 ^ 32) ltac:(lia)) as Hbound.
  pose proof (Z.div_mod x (2 ^ 32) ltac:(lia)) as Hdiv.
  destruct (Z.ltb_spec (x mod 2 ^ 32) (2 ^ 31)) as [Hlow | Hhigh].
  - split; [lia |].
    replace (x mod 2 ^ 32 - x) with (- (x / 2 ^ 32) * 2 ^ 32) by lia.
    apply Z.mod_mul. lia.
  - split; [lia |].
    replace (x mod 2 ^ 32 - 2 ^ 32 - x) with ((- (x / 2 ^ 32) - 1) * 2 ^ 32)
      by lia.
    apply Z.mod_mul. lia.
Qed.

(** C6, as stated, fails beyond 32 bits: for the diagnostic at line 2^31,
    column 5, with a serialization that succeeds, the detail attached is not
    the detail of that severity, line and column. *)
Lemma ErrToStatus_position_not_kept :
  ~ exists any : Any,
      marshalDecimal
        {| Severity := IssueDetails_ERROR;
           Position := Some {| Pos_Location := ""; Pos_Offset := 0;
                               Pos_Line := 2 ^ 31; Pos_Column := 5 |};
           Id := 0 |} = inl any
      /\ Details (ErrToStatus marshalDecimal
                    {| Err_Location := {| Description := "<input>";
                                          Line := 2 ^ 31; Column := 5 |};
                       Err_Message := "unexpected token" |}
                    IssueDetails_ERROR)
         = [any].
Proof.
  intros [any [Hany Hdetails]].
  vm_compute in Hany. vm_compute in Hdetails.
  injection Hany as <-. discriminate Hdetails.
Qed.

(** C6, amended: for every diagnostic and severity, [ErrToStatus] returns a
    status whose code is InvalidArgument and whose message is the
    diagnostic's message. Its details are the one detail message made of the
    severity and of the line and column narrowed to 32 bits when that
    detail can be attached, and empty when attaching fails; the narrowed
    line and column lie in the 32-bit signed range and differ from the
    diagnostic's by a multiple of 2^32. The function is total: it returns a
    status in both cases. *)
Theorem ErrToStatus_best_effort
  (MarshalAny : IssueDetails -> Any + error)
  (e : common_Error) (severity : IssueDetails_Severity) :
  Code (ErrToStatus MarshalAny e severity) = codes.InvalidArgument
  /\ Message (ErrToStatus MarshalAny e severity) = Err_Message e
  /\ Details (ErrToStatus MarshalAny e severity)
     = match MarshalAny
               {| Severity := severity;
                  Position := Some {| Pos_Location := "";
                                      Pos_Offset := 0;
                                      Pos_Line := int32 (Line (Err_Location e));
                                      Pos_Column := int32 (Column (Err_Location e)) |};
                  Id := 0 |}
       with
       | inl any => [any]
       | inr _ => []
       end
  /\ (- 2 ^ 31 <= int32 (Line (Err_Location e)) < 2 ^ 31
      /\ (int32 (Line (Err_Location e)) - Line (Err_Location e)) mod 2 ^ 32 = 0)
  /\ (- 2 ^ 31 <= int32 (Column (Err_Location e)) < 2 ^ 31
      /\ (int32 (Column (Err_Location e)) - Column (Err_Location e))
         mod 2 ^ 32 = 0).
Proof.
  repeat split; try apply int32_spec;
    unfold ErrToStatus, issueDetail, status.WithDetails; cbn;
    destruct (MarshalAny _) as [any | err]; reflexivity.
Qed.

(** The loop of [appendErrors], unrolled. *)
Lemma appendErrors_app (MarshalAny : IssueDetails -> Any + error)
  (errs : list common_Error) :
  forall issues : list Status,
    fold_left (fun acc e => acc ++ [ErrToStatus MarshalAny e IssueDetails_ERROR])
              errs issues
    = issues ++ map (fun e => ErrToStatus MarshalAny e IssueDetails_ERROR) errs.
Proof.
  induction errs as [| e errs IH]; intros issues; simpl.
  - now rewrite app_nil_r.
  - rewrite IH, <- app_assoc. reflexivity.
Qed.

(** C7: for every sequence of diagnostics, [appendErrors] extends the issue
    list by exactly one status record per diagnostic, the record of
    [ErrToStatus] at severity ERROR, in the order of the input. *)
Theorem appendErrors_one_per_diagnostic
  (MarshalAny : IssueDetails -> Any + error)
  (errs : list common_Error) (issues : list Status) :
  appendErrors MarshalAny errs issues
  = issues ++ map (fun e => ErrToStatus MarshalAny e IssueDetails_ERROR) errs
  /\ length (appendErrors MarshalAny errs issues)
     = (length issues + length errs)%nat.
Proof.
  unfold appendErrors. rewrite appendErrors_app. split; [reflexivity |].
  now rewrite length_app, length_map.
Qed.

(** ** The value adapter *)

(** With a non-nil error the host value and the conversion of success values
    play no part: the result is the error set of the converted error. *)
Lemma RefValueToExprValue_error
  (RefValueToValue : Val -> go_result Value) (res : option Val) (err : error) :
  RefValueToExprValue RefValueToValue res (Some err)
  = Return (Some (errorSetValue [status.Convert err])) None.
Proof. reflexivity. Qed.

(** C1, as stated, fails on a plain error: for the error "division by zero"
    the result is not an error set whose one record has the InvalidArgument
    code, the error's text and no detail. *)
Lemma RefValueToExprValue_code_not_InvalidArgument :
  ~ exists s : Status,
      RefValueToExprValue cel.RefValueToValue (Some (IntVal 1))
                          (Some (errorString "division by zero"))
      = Return (Some (errorSetValue [s])) None
      /\ Code s = codes.InvalidArgument
      /\ Message s = "division by zero"
      /\ Details s = [].
Proof.
  intros [s [Hret [Hcode _]]].
  rewrite RefValueToExprValue_error in Hret.
  injection Hret as Hs. subst s. discriminate Hcode.
Qed.

(** C1, amended: for every host value (or none) and every non-nil error,
    [RefValueToExprValue] ignores the host value and returns an error set
    with exactly one status record. For a plain error the record has code
    Unknown, the error's text as message and no detail; for an error that
    carries a gRPC status the record is that status. *)
Theorem RefValueToExprValue_error_set
  (RefValueToValue : Val -> go_result Value) (res : option Val) :
  (forall text : string,
     RefValueToExprValue RefValueToValue res (Some (errorString text))
     = Return (Some (errorSetValue
                       [{| Code := codes.Unknown; Message := text;
                           Details := [] |}]))
              None)
  /\ (forall s : Status,
        RefValueToExprValue RefValueToValue res (Some (statusError s))
        = Return (Some (errorSetValue [s])) None).
Proof. split; intros; reflexivity. Qed.

(** C2: for every error-set wire value, whatever its status records (and
    also when the set itself is absent), [ExprValueToRefValue] succeeds with
    the host error value whose message is "XXX add details later". *)
Theorem ExprValueToRefValue_error_set
  (TypeAdapter : Type)
  (ValueToRefValue : TypeAdapter -> option Value -> go_result Val)
  (adapter : TypeAdapter) (e : option ErrorSet) :
  ExprValueToRefValue ValueToRefValue adapter
                      {| Kind := Some (ExprValue_Error e) |}
  = Return (Some (ErrVal "XXX add details later")) None.
Proof. reflexivity. Qed.

(** C3: for every host value [v] of a scalar kind, [RefValueToExprValue]
    (with no error) returns a wire value, and [ExprValueToRefValue] returns
    [v] on that wire value. *)
Theorem scalar_round_trip (adapter : cel.TypeAdapter) (v : Val) :
  scalar v = true ->
  exists ev : ExprValue,
    RefValueToExprValue cel.RefValueToValue (Some v) None
    = Return (Some ev) None
    /\ ExprValueToRefValue cel.ValueToRefValue adapter ev
       = Return (Some v) None.
Proof.
  intros Hscalar.
  destruct v; try discriminate Hscalar;
    (eexists; split; [reflexivity | reflexivity]).
Qed.

Lemma scalar_round_trip_witness :
  scalar (IntVal 42) = true
  /\ exists ev : ExprValue,
       RefValueToExprValue cel.RefValueToValue (Some (IntVal 42)) None
       = Return (Some ev) None
       /\ ExprValueToRefValue cel.ValueToRefValue Tiny.adapter ev
          = Return (Some (IntVal 42)) None.
Proof.
  split; [reflexivity |].
  apply (scalar_round_trip Tiny.adapter (IntVal 42)). reflexivity.
Defined.

(** C4: for every unknown host value, [RefValueToExprValue] with a nil
    error returns the unknown set whose identifiers are the value's
    identifiers, in the same order; the identifiers 1, 3, 5 give the
    identifiers 1, 3, 5. *)
Theorem RefValueToExprValue_unknown
  (RefValueToValue : Val -> go_result Value) :
  (forall ids : list Z,
     RefValueToExprValue RefValueToValue (Some (types.Unknown ids)) None
     = Return (Some (unknownSetValue ids)) None)
  /\ RefValueToExprValue RefValueToValue (Some (types.Unknown [1; 3; 5])) None
     = Return (Some (unknownSetValue [1; 3; 5])) None.
Proof. split; intros; reflexivity. Qed.

(** C5: for every wire value with no tag populated, [ExprValueToRefValue]
    returns no host value and the status error with code InvalidArgument
    and message "unknown ExprValue kind". *)
Theorem ExprValueToRefValue_no_kind
  (TypeAdapter : Type)
  (ValueToRefValue : TypeAdapter -> option Value -> go_result Val)
  (adapter : TypeAdapter) (ev : ExprValue) :
  Kind ev = None ->
  ExprValueToRefValue ValueToRefValue adapter ev
  = Return None
           (Some (statusError {| Code := codes.InvalidArgument;
                                 Message := "unknown ExprValue kind";
                                 Details := [] |})).
Proof. intros Hkind. unfold ExprValueToRefValue. now rewrite Hkind. Qed.

Lemma ExprValueToRefValue_no_kind_witness :
  Kind {| Kind := None |} = None
  /\ ExprValueToRefValue cel.ValueToRefValue Tiny.adapter {| Kind := None |}
     = Return None
              (Some (statusError {| Code := codes.InvalidArgument;
                                    Message := "unknown ExprValue kind";
                                    Details := [] |})).
Proof.
  split; [reflexivity |].
  apply (ExprValueToRefValue_no_kind cel.ValueToRefValue Tiny.adapter
                                     {| Kind := None |}).
  reflexivity.
Defined.

(** ** The handlers *)

Section HandlerProperties.

Variables Env Ast Program Issues ParsedExpr CheckedExpr TypeAdapter : Type.
Variable MarshalAny : IssueDetails -> Any + error.
Variable Issues_Err : Issues -> option error.
Variable Issues_Errors : Issues -> list common_Error.
Variable AstToParsedExpr : Ast -> option ParsedExpr * option error.
Variable ParsedExprToAst : option ParsedExpr -> Ast.
Variable CheckedExprToAst : option CheckedExpr -> Ast.
Variable Env_TypeAdapter : Env -> TypeAdapter.
Variable RefValueToValue : Val -> go_result Value.
Variable ValueToRefValue : TypeAdapter -> option Value -> go_result Val.

Local Abbreviation engineE := (engineE Env Ast Program Issues).
Local Abbreviation Parse' :=
  (@Parse Env Ast Program Issues ParsedExpr
          MarshalAny Issues_Err Issues_Errors AstToParsedExpr).
Local Abbreviation Eval' :=
  (@Eval Env Ast Program Issues ParsedExpr CheckedExpr TypeAdapter
         ParsedExprToAst CheckedExprToAst Env_TypeAdapter
         RefValueToValue ValueToRefValue).

(** C8: for every Parse' request whose source text is empty, [Parse] is the
    finished handler returning no response and the status error with code
    InvalidArgument and message "No source code."; it makes no call to the
    engine, so no parse is attempted. *)
Theorem Parse_no_source (version location : string) (disableMacros : bool) :
  Parse' {| CelSource := ""; SyntaxVersion := version;
           SourceLocation := location; DisableMacros := disableMacros |}
  = Done (Return None
                 (Some (statusError {| Code := codes.InvalidArgument;
                                       Message := "No source code.";
                                       Details := [] |})))
  /\ forall eng : oracle engineE,
       calls eng (Parse' {| CelSource := ""; SyntaxVersion := version;
                           SourceLocation := location;
                           DisableMacros := disableMacros |}) = [].
Proof. split; intros; reflexivity. Qed.

(** C10: replacing the syntax version of a Parse' request changes nothing:
    [Parse] is the same handler, so against every engine it makes the same
    calls and returns the same result. *)
Theorem Parse_ignores_syntax_version (req : ParseRequest) (version : string) :
  Parse' (withSyntaxVersion version req) = Parse' req
  /\ forall eng : oracle engineE,
       run eng (Parse' (withSyntaxVersion version req)) = run eng (Parse' req)
       /\ calls eng (Parse' (withSyntaxVersion version req))
          = calls eng (Parse' req).
Proof.
  assert (Heq : Parse' (withSyntaxVersion version req) = Parse' req)
    by (destruct req; reflexivity).
  split; [exact Heq |]. intros eng. now rewrite Heq.
Qed.

(** The loop over the bindings completes exactly when every binding
    converts without error or panic. *)
Lemma bindArgs_completes (adapter : TypeAdapter)
  (bindings : list (string * ExprValue)) :
  forall args0 : gmap string (option Val),
    (exists args, bindArgs ValueToRefValue adapter bindings args0 = inl args)
    <-> Forall (fun b => exists v,
                  ExprValueToRefValue ValueToRefValue adapter (snd b)
                  = Return v None) bindings.
Proof.
  induction bindings as [| [name ev] rest IH]; intros args0; simpl.
  - split; [constructor | eauto].
  - destruct (ExprValueToRefValue ValueToRefValue adapter ev)
      as [v [err |] |] eqn:Hconv.
    + split.
      * intros [args Habs]. discriminate Habs.
      * intros Hall. inversion Hall as [| ? ? [v' Hv'] _]; subst.
        simpl in Hv'. congruence.
    + rewrite IH. split.
      * intros Hrest. constructor; [simpl; eauto | exact Hrest].
      * intros Hall. now inversion Hall.
    + split.
      * intros [args Habs]. discriminate Habs.
      * intros Hall. inversion Hall as [| ? ? [v' Hv'] _]; subst.
        simpl in Hv'. congruence.
Qed.

(** C9: take an Eval request with a parsed or checked artifact, an engine
    that builds the program, and bindings that all convert. When the
    evaluation returns a non-nil error, [Eval] returns a response and no
    error; the response holds one wire value, the error set of the
    evaluation error. *)
Theorem Eval_error_is_data
  (eng : oracle engineE) (req : EvalRequest ParsedExpr CheckedExpr)
  (kind : EvalRequest_ExprKind ParsedExpr CheckedExpr)
  (env : Env) (envErr : option error) (prg : Program)
  (args : gmap string (option Val)) (res : option Val) (err : error) :
  ExprKind req = Some kind ->
  eng _ (NewEnv _ _ _ _ (evalOptions req)) = (env, envErr) ->
  eng _ (Env_Program _ _ env (artifactAst ParsedExprToAst CheckedExprToAst kind))
  = (prg, None) ->
  bindArgs ValueToRefValue (Env_TypeAdapter env) (Bindings req) ∅ = inl args ->
  eng _ (Program_Eval _ _ _ prg args) = (res, Some err) ->
  run eng (Eval' req)
  = Return (Some {| Result := Some (errorSetValue [status.Convert err]);
                    Eval_Issues := [] |})
           None.
Proof.
  intros Hkind Henv Hprg Hargs Heval.
  unfold Eval. cbn [run]. rewrite Henv. cbn [fst].
  rewrite Hkind.
  destruct kind as [pe | ce]; cbn [artifactAst] in Hprg; cbn [run];
    rewrite Hprg; cbn [fst snd]; unfold evalProgram; rewrite Hargs;
    cbn [run]; rewrite Heval; reflexivity.
Qed.

End HandlerProperties.

Lemma Eval_error_is_data_witness :
  ExprKind Tiny.request = Some (EvalRequest_ParsedExpr unit (Some tt))
  /\ Tiny.engine (NewEnv unit unit unit unit (evalOptions Tiny.request))
     = (tt, None)
  /\ Tiny.engine (Env_Program unit unit tt tt) = (tt, None)
  /\ bindArgs cel.ValueToRefValue Tiny.adapter (Bindings Tiny.request) ∅
     = inl (<["x" := Some (IntVal 7)]> ∅)
  /\ Tiny.engine (Program_Eval unit unit unit tt
                                  (<["x" := Some (IntVal 7)]> ∅))
     = (Some (ErrVal "division by zero"),
        Some (errorString "division by zero"))
  /\ run Tiny.engine (Tiny.Eval Tiny.request)
     = Return (Some {| Result :=
                         Some (errorSetValue
                                 [{| Code := codes.Unknown;
                                     Message := "division by zero";
                                     Details := [] |}]);
                       Eval_Issues := [] |})
              None.
Proof.
  repeat (split; [reflexivity |]).
  apply (@Eval_error_is_data unit unit unit unit unit unit cel.TypeAdapter
           (fun _ => tt) (fun _ => tt) (fun _ => Tiny.adapter)
           cel.RefValueToValue cel.ValueToRefValue
           Tiny.engine Tiny.request
           (EvalRequest_ParsedExpr unit (Some tt))
           tt None tt
           (<["x" := Some (IntVal 7)]> ∅)
           (Some (ErrVal "division by zero"))
           (errorString "division by zero"));
    reflexivity.
Defined.

(** * Further properties of [server.go] *)

(** ** The status translator *)

(** A diagnostic whose line and column fit in 32 bits keeps them in the
    detail: the status carries the serialization of the detail with that
    severity, line and column. *)
Theorem ErrToStatus_position_kept
  (MarshalAny : IssueDetails -> Any + error)
  (e : common_Error) (severity : IssueDetails_Severity) (any : Any) :
  - 2 ^ 31 <= Line (Err_Location e) < 2 ^ 31 ->
  - 2 ^ 31 <= Column (Err_Location e) < 2 ^ 31 ->
  MarshalAny {| Severity := severity;
                Position := Some {| Pos_Location := "";
                                    Pos_Offset := 0;
                                    Pos_Line := Line (Err_Location e);
                                    Pos_Column := Column (Err_Location e) |};
                Id := 0 |} = inl any ->
  ErrToStatus MarshalAny e severity
  = {| Code := codes.InvalidArgument; Message := Err_Message e;
       Details := [any] |}.
Proof.
  intros Hline Hcol Hany.
  unfold ErrToStatus, issueDetail, status.WithDetails. cbn.
  rewrite (int32_in_range Hline), (int32_in_range Hcol), Hany.
  reflexivity.
Qed.

(** [int32] only sees a number modulo 2^32. *)
Lemma int32_periodic (x k : Z) : int32 (x + k * 2 ^ 32) = int32 x.
Proof. unfold int32. now rewrite Z.mod_add by lia. Qed.

(** Positions beyond 32 bits are not told apart: two diagnostics with the
    same message whose lines and columns differ by multiples of 2^32 get the
    same status. *)
Theorem ErrToStatus_position_wraps
  (MarshalAny : IssueDetails -> Any + error)
  (message description1 description2 : string) (line column k1 k2 : Z)
  (severity : IssueDetails_Severity) :
  ErrToStatus MarshalAny
    {| Err_Location := {| Description := description1;
                          Line := line + k1 * 2 ^ 32;
                          Column := column + k2 * 2 ^ 32 |};
       Err_Message := message |} severity
  = ErrToStatus MarshalAny
      {| Err_Location := {| Description := description2;
                            Line := line; Column := column |};
         Err_Message := message |} severity.
Proof.
  unfold ErrToStatus, issueDetail. cbn [Err_Location Err_Message Line Column].
  now rewrite !int32_periodic.
Qed.

(** The code and the message of the status do not depend on the detail. *)
Lemma ErrToStatus_code_message
  (MarshalAny : IssueDetails -> Any + error)
  (e : common_Error) (severity : IssueDetails_Severity) :
  Code (ErrToStatus MarshalAny e severity) = codes.InvalidArgument
  /\ Message (ErrToStatus MarshalAny e severity) = Err_Message e.
Proof.
  unfold ErrToStatus, status.WithDetails. cbn.
  destruct (MarshalAny _); cbn; auto.
Qed.

(** The issues [appendErrors] adds all have the code InvalidArgument, and
    their messages are the diagnostics' messages in order, whether or not
    the details could be attached. *)
Theorem appendErrors_codes_and_messages
  (MarshalAny : IssueDetails -> Any + error)
  (errs : list common_Error) (issues : list Status) :
  map Message (appendErrors MarshalAny errs issues)
  = map Message issues ++ map Err_Message errs
  /\ map Code (appendErrors MarshalAny errs issues)
     = map Code issues ++ map (fun _ => codes.InvalidArgument) errs.
Proof.
  unfold appendErrors. rewrite appendErrors_app, !map_app, !map_map.
  split; f_equal; apply map_ext; intros e;
    pose proof (ErrToStatus_code_message MarshalAny e IssueDetails_ERROR)
      as [Hcode Hmsg]; assumption.
Qed.

(** Appending the diagnostics of two batches one after the other is
    appending their concatenation, and the issues already present stay in
    front, unchanged. *)
Theorem appendErrors_batches
  (MarshalAny : IssueDetails -> Any + error)
  (errs1 errs2 : list common_Error) (issues : list Status) :
  appendErrors MarshalAny errs2 (appendErrors MarshalAny errs1 issues)
  = appendErrors MarshalAny (errs1 ++ errs2) issues
  /\ firstn (length issues) (appendErrors MarshalAny (errs1 ++ errs2) issues)
     = issues.
Proof.
  unfold appendErrors. split.
  - now rewrite fold_left_app.
  - rewrite appendErrors_app.
    rewrite firstn_app, Nat.sub_diag, firstn_all. cbn. apply app_nil_r.
Qed.

Lemma ErrToStatus_position_kept_witness :
  - 2 ^ 31 <= Line (Err_Location Sample.diagnostic) < 2 ^ 31
  /\ - 2 ^ 31 <= Column (Err_Location Sample.diagnostic) < 2 ^ 31
  /\ ErrToStatus Sample.MarshalAny Sample.diagnostic IssueDetails_ERROR
     = {| Code := codes.InvalidArgument; Message := "unexpected token";
          Details := [{| TypeUrl := "type.googleapis.com/google.api.expr.conformance.v1alpha1.IssueDetails";
                         AnyValue := [ascii_of_nat 3; ascii_of_nat 5] |}] |}.
Proof.
  split; [cbn; lia |]. split; [cbn; lia |].
  apply (@ErrToStatus_position_kept Sample.MarshalAny Sample.diagnostic
           IssueDetails_ERROR);
    [cbn; lia | cbn; lia | reflexivity].
Defined.

(** ** The value adapter *)

(** The unknown variant goes through the adapter unchanged in both
    directions: host to wire and back gives the same unknown value, and an
    unknown set goes to a host value that converts back to the same set. *)
Theorem unknown_round_trip
  (TypeAdapter : Type)
  (RefValueToValue : Val -> go_result Value)
  (ValueToRefValue : TypeAdapter -> option Value -> go_result Val)
  (adapter : TypeAdapter) (ids : list Z) :
  (exists ev : ExprValue,
     RefValueToExprValue RefValueToValue (Some (types.Unknown ids)) None
     = Return (Some ev) None
     /\ ExprValueToRefValue ValueToRefValue adapter ev
        = Return (Some (types.Unknown ids)) None)
  /\ (exists v : Val,
        ExprValueToRefValue ValueToRefValue adapter (unknownSetValue ids)
        = Return (Some v) None
        /\ RefValueToExprValue RefValueToValue (Some v) None
           = Return (Some (unknownSetValue ids)) None).
Proof. split; eexists; split; reflexivity. Qed.

(** An evaluation error does not survive the round trip: whatever the error
    and the host value, the error set made by [RefValueToExprValue] comes
    back from [ExprValueToRefValue] as the same host error value, which
    keeps nothing of the error's text or code. *)
Theorem error_round_trip_loses_error
  (TypeAdapter : Type)
  (RefValueToValue : Val -> go_result Value)
  (ValueToRefValue : TypeAdapter -> option Value -> go_result Val)
  (adapter : TypeAdapter) (res : option Val) (err : error) :
  exists ev : ExprValue,
    RefValueToExprValue RefValueToValue res (Some err) = Return (Some ev) None
    /\ ExprValueToRefValue ValueToRefValue adapter ev
       = Return (Some (ErrVal "XXX add details later")) None.
Proof. eexists; split; reflexivity. Qed.

(** [RefValueToExprValue] returns a wire value or an error, never both and
    never neither; a wire value it returns has its tag populated. It only
    fails or panics when it was given no evaluation error. *)
Theorem RefValueToExprValue_one_tag
  (RefValueToValue : Val -> go_result Value)
  (res : option Val) (err : option error) :
  match RefValueToExprValue RefValueToValue res err with
  | Return (Some ev) None => Kind ev <> None
  | Return None (Some _) => err = None
  | Return _ _ => False
  | Panic => err = None
  end.
Proof.
  unfold RefValueToExprValue.
  destruct err as [e |]; [discriminate |].
  destruct res as [v |]; [| reflexivity].
  destruct (types.IsUnknown v).
  - destruct (types.Value_int64s v); [discriminate | reflexivity].
  - destruct (RefValueToValue v) as [w [e |] |]; try reflexivity.
    discriminate.
Qed.

(** ** The handlers [Parse] and [Check] *)

Section ParseCheckProperties.

Variables Env Ast Program Issues ParsedExpr CheckedExpr SourceInfo Decl : Type.
Variable MarshalAny : IssueDetails -> Any + error.
Variable Issues_Err : Issues -> option error.
Variable Issues_Errors : Issues -> list common_Error.
Variable AstToParsedExpr : Ast -> option ParsedExpr * option error.
Variable ParsedExpr_SourceInfo : ParsedExpr -> option SourceInfo.
Variable ParsedExprToAst : option ParsedExpr -> Ast.
Variable AstToCheckedExpr : Ast -> option CheckedExpr * option error.

Local Abbreviation parserE := (engineE Env Ast Program Issues).
Local Abbreviation checkE := (checkerE Env Ast Issues Decl).
Local Abbreviation Parse' :=
  (@Parse Env Ast Program Issues ParsedExpr
          MarshalAny Issues_Err Issues_Errors AstToParsedExpr).
Local Abbreviation Check' :=
  (@Check Env Ast Issues ParsedExpr CheckedExpr SourceInfo Decl
          MarshalAny Issues_Err Issues_Errors ParsedExpr_SourceInfo
          ParsedExprToAst AstToCheckedExpr).

(** The options [Parse] builds its environment with. *)
Local Abbreviation parseOptions req :=
  (if DisableMacros req then [ClearMacros] else []).

(** With a source text, [Parse] makes exactly two calls: it builds an
    environment, clearing the macros exactly when the request disables
    them, and parses the source text, unchanged, in the environment it got
    (the error of the construction is dropped). *)
Theorem Parse_calls (eng : oracle parserE) (req : ParseRequest) :
  CelSource req <> "" ->
  calls eng (Parse' req)
  = [existT _ (NewEnv Env Ast Program Issues (parseOptions req));
     existT _ (Env_Parse Ast Program Issues
                 (fst (eng _ (NewEnv Env Ast Program Issues (parseOptions req))))
                 (CelSource req))].
Proof.
  intros Hsrc. unfold Parse.
  destruct (String.eqb_spec (CelSource req) "") as [Heq | _];
    [contradiction | reflexivity].
Qed.

(** With a source text, [Parse] never returns an error, whatever the engine
    answers: it returns a response, which never holds both a parsed
    expression and issues. *)
Theorem Parse_responds (eng : oracle parserE) (req : ParseRequest) :
  CelSource req <> "" ->
  exists resp : ParseResponse ParsedExpr,
    run eng (Parse' req) = Return (Some resp) None
    /\ (Parse_Issues resp = [] \/ Parse_ParsedExpr resp = None).
Proof.
  intros Hsrc. unfold Parse.
  destruct (String.eqb_spec (CelSource req) "") as [Heq | _];
    [contradiction |].
  cbn [run].
  destruct (snd (eng _ (Env_Parse _ _ _ _ _))) as [iss |].
  - destruct (Issues_Err iss); eexists; (split; [reflexivity |]);
      [right | left]; reflexivity.
  - eexists; split; [reflexivity | left; reflexivity].
Qed.

(** When the parser reports issues that amount to an error, the response of
    [Parse] has no parsed expression and one status per diagnostic, in the
    order of the diagnostics; the call itself succeeds. *)
Theorem Parse_issues (eng : oracle parserE) (req : ParseRequest)
  (past : Ast) (iss : Issues) (err : error) :
  CelSource req <> "" ->
  eng _ (Env_Parse Ast Program Issues
           (fst (eng _ (NewEnv Env Ast Program Issues (parseOptions req))))
           (CelSource req))
  = (past, Some iss) ->
  Issues_Err iss = Some err ->
  run eng (Parse' req)
  = Return (Some {| Parse_ParsedExpr := None;
                    Parse_Issues :=
                      map (fun e => ErrToStatus MarshalAny e IssueDetails_ERROR)
                          (Issues_Errors iss) |})
           None.
Proof.
  intros Hsrc Hparse Herr. unfold Parse.
  destruct (String.eqb_spec (CelSource req) "") as [Heq | _];
    [contradiction |].
  cbn [run]. rewrite Hparse. cbn [fst snd]. rewrite Herr.
  unfold appendErrors. now rewrite appendErrors_app.
Qed.

(** [Check] without a parsed expression fails with InvalidArgument and "No
    parsed expression.", and makes no call to the engine. *)
Theorem Check_no_parsed_expr (req : CheckRequest ParsedExpr Decl) :
  Check_ParsedExpr req = None ->
  Check' req
  = Done (Return None
                 (Some (statusError {| Code := codes.InvalidArgument;
                                       Message := "No parsed expression.";
                                       Details := [] |}))).
Proof. intros Hnone. unfold Check. now rewrite Hnone. Qed.

(** [Check] of a parsed expression without source information fails with
    InvalidArgument and "No source info.", and makes no call to the
    engine. *)
Theorem Check_no_source_info (req : CheckRequest ParsedExpr Decl)
  (parsed : ParsedExpr) :
  Check_ParsedExpr req = Some parsed ->
  ParsedExpr_SourceInfo parsed = None ->
  Check' req
  = Done (Return None
                 (Some (statusError {| Code := codes.InvalidArgument;
                                       Message := "No source info.";
                                       Details := [] |}))).
Proof. intros Hsome Hinfo. unfold Check. now rewrite Hsome, Hinfo. Qed.

(** With a parsed expression that has source information, [Check] makes
    exactly two calls. The environment it builds has the standard library
    exactly when the request does not exclude it, then the container, the
    declarations of the request and the two test message types, in this
    order; the expression is checked in the environment it got. *)
Theorem Check_calls (eng : oracle checkE) (req : CheckRequest ParsedExpr Decl)
  (parsed : ParsedExpr) (info : SourceInfo) :
  Check_ParsedExpr req = Some parsed ->
  ParsedExpr_SourceInfo parsed = Some info ->
  let opts :=
    (if NoStdEnv req then [] else [StdLib Decl])
    ++ [EnvOpt Decl (Container (Check_Container req));
        Declarations (TypeEnv req);
        EnvOpt Decl (Types [test2pb_TestAllTypes]);
        EnvOpt Decl (Types [test3pb_TestAllTypes])] in
  calls eng (Check' req)
  = [existT _ (NewCustomEnv Env Ast Issues opts);
     existT _ (Env_Check Issues Decl
                 (fst (eng _ (NewCustomEnv Env Ast Issues opts)))
                 (ParsedExprToAst (Some parsed)))].
Proof.
  intros Hsome Hinfo opts. unfold Check. rewrite Hsome, Hinfo.
  assert (Hopts : checkOptions req = opts)
    by (unfold checkOptions, opts; destruct (NoStdEnv req); reflexivity).
  cbn [calls]. now rewrite Hopts.
Qed.

(** With a parsed expression that has source information and an
    environment that was built (no error from its construction), [Check]
    never returns an error, whatever the checker answers: it returns a
    response, which never holds both a checked expression and issues. *)
Theorem Check_responds (eng : oracle checkE)
  (req : CheckRequest ParsedExpr Decl)
  (parsed : ParsedExpr) (info : SourceInfo) :
  Check_ParsedExpr req = Some parsed ->
  ParsedExpr_SourceInfo parsed = Some info ->
  snd (eng _ (NewCustomEnv Env Ast Issues (checkOptions req))) = None ->
  exists resp : CheckResponse CheckedExpr,
    run eng (Check' req) = Return (Some resp) None
    /\ (Check_Issues resp = [] \/ Check_CheckedExpr resp = None).
Proof.
  intros Hsome Hinfo Hbuilt. unfold Check. rewrite Hsome, Hinfo. cbn [run].
  destruct (snd (eng _ (Env_Check _ _ _ _))) as [iss |].
  - destruct (Issues_Err iss); eexists; (split; [reflexivity |]);
      [right | left]; reflexivity.
  - eexists; split; [reflexivity | left; reflexivity].
Qed.

(** When the checker reports issues that amount to an error, the response
    of [Check] has no checked expression and one status per diagnostic, in
    the order of the diagnostics; the call itself succeeds. *)
Theorem Check_issues (eng : oracle checkE)
  (req : CheckRequest ParsedExpr Decl)
  (parsed : ParsedExpr) (info : SourceInfo)
  (cast : Ast) (iss : Issues) (err : error) :
  Check_ParsedExpr req = Some parsed ->
  ParsedExpr_SourceInfo parsed = Some info ->
  eng _ (Env_Check Issues Decl
           (fst (eng _ (NewCustomEnv Env Ast Issues (checkOptions req))))
           (ParsedExprToAst (Some parsed)))
  = (cast, Some iss) ->
  Issues_Err iss = Some err ->
  run eng (Check' req)
  = Return (Some {| Check_CheckedExpr := None;
                    Check_Issues :=
                      map (fun e => ErrToStatus MarshalAny e IssueDetails_ERROR)
                          (Issues_Errors iss) |})
           None.
Proof.
  intros Hsome Hinfo Hcheck Herr. unfold Check. rewrite Hsome, Hinfo.
  cbn [run]. rewrite Hcheck. cbn [fst snd]. rewrite Herr.
  unfold appendErrors. now rewrite appendErrors_app.
Qed.

End ParseCheckProperties.

(** ** The handler [Eval] *)

Section EvalProperties.

Variables Env Ast Program Issues ParsedExpr CheckedExpr TypeAdapter : Type.
Variable ParsedExprToAst : option ParsedExpr -> Ast.
Variable CheckedExprToAst : option CheckedExpr -> Ast.
Variable Env_TypeAdapter : Env -> TypeAdapter.
Variable RefValueToValue : Val -> go_result Value.
Variable ValueToRefValue : TypeAdapter -> option Value -> go_result Val.

Local Abbreviation evalE := (engineE Env Ast Program Issues).
Local Abbreviation Eval' :=
  (@Eval Env Ast Program Issues ParsedExpr CheckedExpr TypeAdapter
         ParsedExprToAst CheckedExprToAst Env_TypeAdapter
         RefValueToValue ValueToRefValue).
Local Abbreviation evalProgram' :=
  (@evalProgram Env Ast Program Issues ParsedExpr CheckedExpr TypeAdapter
                Env_TypeAdapter RefValueToValue ValueToRefValue).
Local Abbreviation bindArgs' := (bindArgs ValueToRefValue).
Local Abbreviation converts adapter :=
  (fun b : string * ExprValue =>
     exists v, ExprValueToRefValue ValueToRefValue adapter (snd b)
               = Return v None).

(** The environment [Eval] works in: the first component of the engine's
    answer, whatever the second. *)
Local Abbreviation envOf eng req :=
  (fst (eng _ (NewEnv Env Ast Program Issues (evalOptions req)))).

(** *** The loop over the bindings *)

(** The loop stops at the first binding that does not convert, with an
    error that names the binding and quotes the conversion's error; the
    bindings after it are not looked at. *)
Lemma bindArgs_first_failure (adapter : TypeAdapter)
  (pre post : list (string * ExprValue)) (name : string) (ev : ExprValue)
  (v : option Val) (err : error) :
  Forall (converts adapter) pre ->
  ExprValueToRefValue ValueToRefValue adapter ev = Return v (Some err) ->
  forall args0 : gmap string (option Val),
    bindArgs' adapter (pre ++ (name, ev) :: post) args0
    = inr (Return None (Some (fmt.Errorf_binding name err))).
Proof.
  intros Hpre Hev. induction Hpre as [| [n e] pre [w Hw] _ IH]; intros args0.
  - cbn. now rewrite Hev.
  - cbn. cbn in Hw. rewrite Hw. apply IH.
Qed.

(** What the completed loop has bound, name by name. *)
Lemma bindArgs_bound (adapter : TypeAdapter)
  (bindings : list (string * ExprValue)) :
  forall args0 args : gmap string (option Val),
    List.NoDup (map fst bindings) ->
    bindArgs' adapter bindings args0 = inl args ->
    (forall name ev, In (name, ev) bindings ->
       exists v, ExprValueToRefValue ValueToRefValue adapter ev = Return v None
                 /\ args !! name = Some v)
    /\ (forall name, ~ In name (map fst bindings) ->
          args !! name = args0 !! name).
Proof.
  induction bindings as [| [n e] rest IH]; intros args0 args Hnodup Hloop.
  - cbn in Hloop. injection Hloop as <-. split; [intros ? ? [] | reflexivity].
  - cbn in Hloop, Hnodup. apply NoDup_cons_iff in Hnodup as [Hfresh Hnodup].
    destruct (ExprValueToRefValue ValueToRefValue adapter e)
      as [v [err |] |] eqn:Hconv; try discriminate Hloop.
    destruct (IH _ _ Hnodup Hloop) as [Hin Hout]. split.
    + intros name ev [Hhead | Htail].
      * injection Hhead as <- <-. exists v. split; [exact Hconv |].
        rewrite (Hout n Hfresh). apply lookup_insert_eq.
      * apply Hin, Htail.
    + intros name Hname. cbn in Hname.
      rewrite Hout by tauto. apply lookup_insert_ne. tauto.
Qed.

(** When the loop completes over bindings with distinct names, every
    binding's name maps to the host value its wire value converts to, and
    no other name is touched. *)
Theorem bindArgs_lookup (adapter : TypeAdapter)
  (bindings : list (string * ExprValue))
  (args0 args : gmap string (option Val)) :
  List.NoDup (map fst bindings) ->
  bindArgs' adapter bindings args0 = inl args ->
  (forall name ev, In (name, ev) bindings ->
     exists v, ExprValueToRefValue ValueToRefValue adapter ev = Return v None
               /\ args !! name = Some v)
  /\ (forall name, ~ In name (map fst bindings) ->
        args !! name = args0 !! name).
Proof. apply bindArgs_bound. Qed.

(** The arguments do not depend on the order in which the bindings are
    visited: over bindings with distinct names, a loop that completes in one
    order completes in every other order, with the same arguments. *)
Theorem bindArgs_order (adapter : TypeAdapter)
  (bindings1 bindings2 : list (string * ExprValue))
  (args0 args : gmap string (option Val)) :
  Permutation bindings1 bindings2 ->
  List.NoDup (map fst bindings1) ->
  bindArgs' adapter bindings1 args0 = inl args ->
  bindArgs' adapter bindings2 args0 = inl args.
Proof.
  intros Hperm Hnodup1 Hloop1.
  assert (Hnodup2 : List.NoDup (map fst bindings2))
    by (eapply Permutation_NoDup; [apply Permutation_map, Hperm | exact Hnodup1]).
  assert (Hall2 : Forall (converts adapter) bindings2).
  { eapply Permutation_Forall; [exact Hperm |].
    apply (bindArgs_completes ValueToRefValue adapter bindings1 args0). eauto. }
  apply (bindArgs_completes ValueToRefValue adapter bindings2 args0) in Hall2
    as [args2 Hloop2].
  rewrite Hloop2. f_equal. apply map_eq. intros name.
  destruct (@bindArgs_bound adapter bindings1 args0 args Hnodup1 Hloop1)
    as [Hin1 Hout1].
  destruct (@bindArgs_bound adapter bindings2 args0 args2 Hnodup2 Hloop2)
    as [Hin2 Hout2].
  destruct (in_dec string_dec name (map fst bindings1)) as [Hname | Hname].
  - apply in_map_iff in Hname as [[n ev] [Hn Hbinding]]. cbn in Hn. subst n.
    destruct (Hin1 _ _ Hbinding) as [v1 [Hconv1 ->]].
    assert (Hbinding2 : In (name, ev) bindings2)
      by (eapply Permutation_in; eassumption).
    destruct (Hin2 _ _ Hbinding2) as [v2 [Hconv2 ->]].
    congruence.
  - rewrite Hout1 by exact Hname. rewrite Hout2; [reflexivity |].
    intros Hname2. apply Hname.
    eapply Permutation_in; [apply Permutation_map; symmetry; exact Hperm |].
    exact Hname2.
Qed.

(** *** The paths of [Eval] *)

(** Once the request names an artifact and the engine builds the program,
    [Eval] goes on as [evalProgram] says. *)
Lemma Eval_built (eng : oracle evalE) (req : EvalRequest ParsedExpr CheckedExpr)
  (kind : EvalRequest_ExprKind ParsedExpr CheckedExpr) (prg : Program) :
  ExprKind req = Some kind ->
  eng _ (Env_Program Program Issues (envOf eng req)
           (artifactAst ParsedExprToAst CheckedExprToAst kind))
  = (prg, None) ->
  run eng (Eval' req) = run eng (evalProgram' (envOf eng req) prg req)
  /\ calls eng (Eval' req)
     = existT _ (NewEnv Env Ast Program Issues (evalOptions req))
       :: existT _ (Env_Program Program Issues (envOf eng req)
                      (artifactAst ParsedExprToAst CheckedExprToAst kind))
       :: calls eng (evalProgram' (envOf eng req) prg req).
Proof.
  intros Hkind Hprg. unfold Eval. cbn [run calls]. rewrite Hkind.
  destruct kind as [pe | ce]; cbn [artifactAst] in *; cbn [run calls];
    rewrite Hprg; cbn [fst snd]; split; reflexivity.
Qed.

(** Without an expression, [Eval] fails with InvalidArgument and "No
    expression."; it has built the environment by then, and makes no other
    call. *)
Theorem Eval_no_expression (eng : oracle evalE)
  (req : EvalRequest ParsedExpr CheckedExpr) :
  ExprKind req = None ->
  run eng (Eval' req)
  = Return None
           (Some (statusError {| Code := codes.InvalidArgument;
                                 Message := "No expression.";
                                 Details := [] |}))
  /\ calls eng (Eval' req)
     = [existT _ (NewEnv Env Ast Program Issues (evalOptions req))].
Proof.
  intros Hkind. unfold Eval. cbn [run calls]. rewrite Hkind.
  split; reflexivity.
Qed.

(** When the engine cannot build the program, [Eval] returns the engine's
    error as it is. It has not looked at the bindings and does not
    evaluate: its calls are the construction of the environment and of the
    program. *)
Theorem Eval_program_error (eng : oracle evalE)
  (req : EvalRequest ParsedExpr CheckedExpr)
  (kind : EvalRequest_ExprKind ParsedExpr CheckedExpr)
  (prg : Program) (err : error) :
  ExprKind req = Some kind ->
  eng _ (Env_Program Program Issues (envOf eng req)
           (artifactAst ParsedExprToAst CheckedExprToAst kind))
  = (prg, Some err) ->
  run eng (Eval' req) = Return None (Some err)
  /\ calls eng (Eval' req)
     = [existT _ (NewEnv Env Ast Program Issues (evalOptions req));
        existT _ (Env_Program Program Issues (envOf eng req)
                    (artifactAst ParsedExprToAst CheckedExprToAst kind))].
Proof.
  intros Hkind Hprg. unfold Eval. cbn [run calls]. rewrite Hkind.
  destruct kind as [pe | ce]; cbn [artifactAst] in *; cbn [run calls];
    rewrite Hprg; cbn [fst snd]; split; reflexivity.
Qed.

(** When a binding does not convert and those visited before it do, [Eval]
    fails with the plain error "can't convert binding NAME: TEXT", where
    TEXT is the text of the conversion's error, and does not evaluate. *)
Theorem Eval_binding_error (eng : oracle evalE)
  (req : EvalRequest ParsedExpr CheckedExpr)
  (kind : EvalRequest_ExprKind ParsedExpr CheckedExpr) (prg : Program)
  (pre post : list (string * ExprValue)) (name : string) (ev : ExprValue)
  (v : option Val) (err : error) :
  ExprKind req = Some kind ->
  eng _ (Env_Program Program Issues (envOf eng req)
           (artifactAst ParsedExprToAst CheckedExprToAst kind))
  = (prg, None) ->
  Bindings req = pre ++ (name, ev) :: post ->
  Forall (converts (Env_TypeAdapter (envOf eng req))) pre ->
  ExprValueToRefValue ValueToRefValue (Env_TypeAdapter (envOf eng req)) ev
  = Return v (Some err) ->
  run eng (Eval' req)
  = Return None
           (Some (errorString
                    ("can't convert binding " +:+ name +:+ ": " +:+ Error err)))
  /\ calls eng (Eval' req)
     = [existT _ (NewEnv Env Ast Program Issues (evalOptions req));
        existT _ (Env_Program Program Issues (envOf eng req)
                    (artifactAst ParsedExprToAst CheckedExprToAst kind))].
Proof.
  intros Hkind Hprg Hbindings Hpre Hev.
  destruct (@Eval_built eng req kind prg Hkind Hprg) as [-> ->].
  unfold evalProgram. rewrite Hbindings.
  rewrite (@bindArgs_first_failure _ pre post name ev v err Hpre Hev).
  split; reflexivity.
Qed.

(** A binding whose wire value has no tag makes [Eval] fail with the text
    "can't convert binding NAME: rpc error: code = InvalidArgument desc =
    unknown ExprValue kind". The error is a plain one: the InvalidArgument
    code is only part of its text, and gRPC gives it the code Unknown. *)
Theorem Eval_binding_without_kind (eng : oracle evalE)
  (req : EvalRequest ParsedExpr CheckedExpr)
  (kind : EvalRequest_ExprKind ParsedExpr CheckedExpr) (prg : Program)
  (pre post : list (string * ExprValue)) (name : string) :
  ExprKind req = Some kind ->
  eng _ (Env_Program Program Issues (envOf eng req)
           (artifactAst ParsedExprToAst CheckedExprToAst kind))
  = (prg, None) ->
  Bindings req = pre ++ (name, {| Kind := None |}) :: post ->
  Forall (converts (Env_TypeAdapter (envOf eng req))) pre ->
  exists err : error,
    run eng (Eval' req) = Return None (Some err)
    /\ Error err
       = "can't convert binding " +:+ name
         +:+ ": rpc error: code = InvalidArgument desc = unknown ExprValue kind"
    /\ Code (status.Convert err) = codes.Unknown.
Proof.
  intros Hkind Hprg Hbindings Hpre.
  destruct (@Eval_built eng req kind prg Hkind Hprg) as [-> _].
  unfold evalProgram. rewrite Hbindings.
  erewrite (@bindArgs_first_failure _ pre post name); [| exact Hpre | reflexivity].
  eexists. split; [reflexivity |]. split; reflexivity.
Qed.

(** What [Eval] returns once the bindings are bound and the program has
    been evaluated. *)
Lemma Eval_evaluated (eng : oracle evalE)
  (req : EvalRequest ParsedExpr CheckedExpr)
  (kind : EvalRequest_ExprKind ParsedExpr CheckedExpr) (prg : Program)
  (args : gmap string (option Val)) (res : option Val) (err : option error) :
  ExprKind req = Some kind ->
  eng _ (Env_Program Program Issues (envOf eng req)
           (artifactAst ParsedExprToAst CheckedExprToAst kind))
  = (prg, None) ->
  bindArgs' (Env_TypeAdapter (envOf eng req)) (Bindings req) ∅ = inl args ->
  eng _ (Program_Eval Env Ast Issues prg args) = (res, err) ->
  run eng (Eval' req)
  = match RefValueToExprValue RefValueToValue res err with
    | Panic => Panic
    | Return _ (Some e) => Return None (Some (fmt.Errorf_result e))
    | Return resultExprVal None =>
        Return (Some {| Result := resultExprVal; Eval_Issues := [] |}) None
    end.
Proof.
  intros Hkind Hprg Hargs Heval.
  destruct (@Eval_built eng req kind prg Hkind Hprg) as [-> _].
  unfold evalProgram. rewrite Hargs. cbn [run]. rewrite Heval. cbn [fst snd].
  destruct (RefValueToExprValue RefValueToValue res err) as [w [e |] |];
    reflexivity.
Qed.

(** When the evaluation gives an unknown value and no error, the response
    of [Eval] holds the unknown set with the value's identifiers. *)
Theorem Eval_unknown_result (eng : oracle evalE)
  (req : EvalRequest ParsedExpr CheckedExpr)
  (kind : EvalRequest_ExprKind ParsedExpr CheckedExpr) (prg : Program)
  (args : gmap string (option Val)) (ids : list Z) :
  ExprKind req = Some kind ->
  eng _ (Env_Program Program Issues (envOf eng req)
           (artifactAst ParsedExprToAst CheckedExprToAst kind))
  = (prg, None) ->
  bindArgs' (Env_TypeAdapter (envOf eng req)) (Bindings req) ∅ = inl args ->
  eng _ (Program_Eval Env Ast Issues prg args)
  = (Some (types.Unknown ids), None) ->
  run eng (Eval' req)
  = Return (Some {| Result := Some (unknownSetValue ids); Eval_Issues := [] |})
           None.
Proof.
  intros Hkind Hprg Hargs Heval.
  now rewrite (@Eval_evaluated eng req kind prg args _ _ Hkind Hprg Hargs Heval).
Qed.

(** When the evaluation gives a value and no error but the value does not
    convert to a wire value, [Eval] fails with the plain error "con't
    convert result: TEXT", where TEXT is the text of the conversion's
    error. *)
Theorem Eval_result_error (eng : oracle evalE)
  (req : EvalRequest ParsedExpr CheckedExpr)
  (kind : EvalRequest_ExprKind ParsedExpr CheckedExpr) (prg : Program)
  (args : gmap string (option Val)) (res : Val) (w : option Value)
  (err : error) :
  ExprKind req = Some kind ->
  eng _ (Env_Program Program Issues (envOf eng req)
           (artifactAst ParsedExprToAst CheckedExprToAst kind))
  = (prg, None) ->
  bindArgs' (Env_TypeAdapter (envOf eng req)) (Bindings req) ∅ = inl args ->
  eng _ (Program_Eval Env Ast Issues prg args) = (Some res, None) ->
  types.IsUnknown res = false ->
  RefValueToValue res = Return w (Some err) ->
  run eng (Eval' req)
  = Return None (Some (errorString ("con't convert result: " +:+ Error err))).
Proof.
  intros Hkind Hprg Hargs Heval Hknown Hconv.
  rewrite (@Eval_evaluated eng req kind prg args _ _ Hkind Hprg Hargs Heval).
  unfold RefValueToExprValue. now rewrite Hknown, Hconv.
Qed.

(** When the evaluation gives a value that is not unknown and no error, and
    the value converts, the response of [Eval] holds the converted value
    under the success tag. *)
Theorem Eval_value_result (eng : oracle evalE)
  (req : EvalRequest ParsedExpr CheckedExpr)
  (kind : EvalRequest_ExprKind ParsedExpr CheckedExpr) (prg : Program)
  (args : gmap string (option Val)) (res : Val) (w : option Value) :
  ExprKind req = Some kind ->
  eng _ (Env_Program Program Issues (envOf eng req)
           (artifactAst ParsedExprToAst CheckedExprToAst kind))
  = (prg, None) ->
  bindArgs' (Env_TypeAdapter (envOf eng req)) (Bindings req) ∅ = inl args ->
  eng _ (Program_Eval Env Ast Issues prg args) = (Some res, None) ->
  types.IsUnknown res = false ->
  RefValueToValue res = Return w None ->
  run eng (Eval' req)
  = Return (Some {| Result := Some {| Kind := Some (ExprValue_Value w) |};
                    Eval_Issues := [] |})
           None.
Proof.
  intros Hkind Hprg Hargs Heval Hknown Hconv.
  rewrite (@Eval_evaluated eng req kind prg args _ _ Hkind Hprg Hargs Heval).
  unfold RefValueToExprValue. now rewrite Hknown, Hconv.
Qed.

(** [Eval] calls the engine at most three times, whatever the request, the
    number of its bindings and the engine's answers. *)
Theorem Eval_at_most_three_calls (eng : oracle evalE)
  (req : EvalRequest ParsedExpr CheckedExpr) :
  (length (calls eng (Eval' req)) <= 3)%nat.
Proof.
  unfold Eval. cbn [calls length].
  assert (Hprogram : forall env prg,
            (length (calls eng (evalProgram' env prg req)) <= 1)%nat).
  { intros env prg. unfold evalProgram.
    destruct (bindArgs' _ _ _) as [args | early]; cbn [calls length]; [| lia].
    destruct (RefValueToExprValue _ _ _) as [w [e |] |]; cbn; lia. }
  destruct (ExprKind req) as [[pe | ce] |]; cbn [calls length]; try lia;
    match goal with
    | |- context [snd ?answer] => destruct (snd answer)
    end; cbn [calls length]; try lia;
    match goal with
    | |- context [@evalProgram _ _ _ _ _ _ _ _ _ _ ?env ?prg _] =>
        pose proof (Hprogram env prg)
    end; lia.
Qed.

End EvalProperties.

(** ** The properties above on the sample engines *)

Lemma Parse_calls_witness :
  CelSource Sample.parseRequest <> ""
  /\ calls (Sample.engine (Some [Sample.diagnostic]) None (None, None))
           (Sample.Parse Sample.parseRequest)
     = [existT _ (NewEnv unit unit unit Sample.Issues [ClearMacros]);
        existT _ (Env_Parse unit unit Sample.Issues tt "1 +")].
Proof.
  split; [discriminate |].
  apply (@Parse_calls unit unit unit Sample.Issues unit Sample.MarshalAny
           Sample.Issues_Err Sample.Issues_Errors (fun _ => (Some tt, None))
           (Sample.engine (Some [Sample.diagnostic]) None (None, None))
           Sample.parseRequest).
  discriminate.
Defined.

Lemma Parse_responds_witness :
  CelSource Sample.parseRequest <> ""
  /\ exists resp : ParseResponse unit,
       run (Sample.engine None None (None, None))
           (Sample.Parse Sample.parseRequest)
       = Return (Some resp) None
       /\ (Parse_Issues resp = [] \/ Parse_ParsedExpr resp = None).
Proof.
  split; [discriminate |].
  apply (@Parse_responds unit unit unit Sample.Issues unit Sample.MarshalAny
           Sample.Issues_Err Sample.Issues_Errors (fun _ => (Some tt, None))
           (Sample.engine None None (None, None)) Sample.parseRequest).
  discriminate.
Defined.

Lemma Parse_issues_witness :
  Sample.Issues_Err [Sample.diagnostic]
  = Some (errorString "ERROR: unexpected token")
  /\ run (Sample.engine (Some [Sample.diagnostic]) None (None, None))
         (Sample.Parse Sample.parseRequest)
     = Return (Some {| Parse_ParsedExpr := None;
                       Parse_Issues :=
                         [ErrToStatus Sample.MarshalAny Sample.diagnostic
                                      IssueDetails_ERROR] |})
              None.
Proof.
  split; [reflexivity |].
  apply (@Parse_issues unit unit unit Sample.Issues unit Sample.MarshalAny
           Sample.Issues_Err Sample.Issues_Errors (fun _ => (Some tt, None))
           (Sample.engine (Some [Sample.diagnostic]) None (None, None))
           Sample.parseRequest tt [Sample.diagnostic]
           (errorString "ERROR: unexpected token"));
    [discriminate | reflexivity | reflexivity].
Defined.

Lemma Check_no_parsed_expr_witness :
  Sample.Check {| Check_ParsedExpr := None; TypeEnv := [];
                  Check_Container := ""; NoStdEnv := false |}
  = Done (Return None
                 (Some (statusError {| Code := codes.InvalidArgument;
                                       Message := "No parsed expression.";
                                       Details := [] |}))).
Proof.
  apply (@Check_no_parsed_expr unit unit Sample.Issues unit unit unit unit
           Sample.MarshalAny Sample.Issues_Err Sample.Issues_Errors
           (fun _ => Some tt) (fun _ => tt) (fun _ => (Some tt, None))).
  reflexivity.
Defined.

Lemma Check_no_source_info_witness :
  @Check unit unit Sample.Issues unit unit unit unit
         Sample.MarshalAny Sample.Issues_Err Sample.Issues_Errors
         (fun _ => None) (fun _ => tt) (fun _ => (Some tt, None))
         Sample.checkRequest
  = Done (Return None
                 (Some (statusError {| Code := codes.InvalidArgument;
                                       Message := "No source info.";
                                       Details := [] |}))).
Proof.
  apply (@Check_no_source_info unit unit Sample.Issues unit unit unit unit
           Sample.MarshalAny Sample.Issues_Err Sample.Issues_Errors
           (fun _ => None) (fun _ => tt) (fun _ => (Some tt, None))
           Sample.checkRequest tt);
    reflexivity.
Defined.

Lemma Check_calls_witness :
  calls (Sample.checker None) (Sample.Check Sample.checkRequest)
  = [existT _ (NewCustomEnv unit unit Sample.Issues
                 [StdLib unit;
                  EnvOpt unit (Container "");
                  Declarations [];
                  EnvOpt unit (Types [test2pb_TestAllTypes]);
                  EnvOpt unit (Types [test3pb_TestAllTypes])]);
     existT _ (Env_Check Sample.Issues unit tt tt)].
Proof.
  apply (@Check_calls unit unit Sample.Issues unit unit unit unit
           Sample.MarshalAny Sample.Issues_Err Sample.Issues_Errors
           (fun _ => Some tt) (fun _ => tt) (fun _ => (Some tt, None))
           (Sample.checker None) Sample.checkRequest tt tt);
    reflexivity.
Defined.

Lemma Check_responds_witness :
  snd (Sample.checker None
         (NewCustomEnv unit unit Sample.Issues (checkOptions Sample.checkRequest)))
  = None
  /\ exists resp : CheckResponse unit,
       run (Sample.checker None) (Sample.Check Sample.checkRequest)
       = Return (Some resp) None
       /\ (Check_Issues resp = [] \/ Check_CheckedExpr resp = None).
Proof.
  split; [reflexivity |].
  apply (@Check_responds unit unit Sample.Issues unit unit unit unit
           Sample.MarshalAny Sample.Issues_Err Sample.Issues_Errors
           (fun _ => Some tt) (fun _ => tt) (fun _ => (Some tt, None))
           (Sample.checker None) Sample.checkRequest tt tt);
    reflexivity.
Defined.

Lemma Check_issues_witness :
  run (Sample.checker (Some [Sample.diagnostic]))
      (Sample.Check Sample.checkRequest)
  = Return (Some {| Check_CheckedExpr := None;
                    Check_Issues :=
                      [ErrToStatus Sample.MarshalAny Sample.diagnostic
                                   IssueDetails_ERROR] |})
           None.
Proof.
  apply (@Check_issues unit unit Sample.Issues unit unit unit unit
           Sample.MarshalAny Sample.Issues_Err Sample.Issues_Errors
           (fun _ => Some tt) (fun _ => tt) (fun _ => (Some tt, None))
           (Sample.checker (Some [Sample.diagnostic])) Sample.checkRequest
           tt tt tt [Sample.diagnostic]
           (errorString "ERROR: unexpected token"));
    reflexivity.
Defined.

Lemma bindArgs_lookup_witness :
  (forall name ev,
     In (name, ev) [("x", Sample.int64Binding 7); ("y", Sample.int64Binding 8)] ->
     exists v,
       ExprValueToRefValue cel.ValueToRefValue Tiny.adapter ev = Return v None
       /\ (<["y" := Some (IntVal 8)]> (<["x" := Some (IntVal 7)]> ∅)
           : gmap string (option Val)) !! name = Some v)
  /\ (forall name,
        ~ In name (map fst [("x", Sample.int64Binding 7);
                            ("y", Sample.int64Binding 8)]) ->
        (<["y" := Some (IntVal 8)]> (<["x" := Some (IntVal 7)]> ∅)
         : gmap string (option Val)) !! name
        = (∅ : gmap string (option Val)) !! name).
Proof.
  apply (@bindArgs_lookup cel.TypeAdapter cel.ValueToRefValue Tiny.adapter
           [("x", Sample.int64Binding 7); ("y", Sample.int64Binding 8)] ∅).
  - repeat constructor; cbn; intuition discriminate.
  - reflexivity.
Defined.

Lemma bindArgs_order_witness :
  bindArgs cel.ValueToRefValue Tiny.adapter
           [("y", Sample.int64Binding 8); ("x", Sample.int64Binding 7)] ∅
  = inl (<["y" := Some (IntVal 8)]> (<["x" := Some (IntVal 7)]> ∅)).
Proof.
  apply (@bindArgs_order cel.TypeAdapter cel.ValueToRefValue Tiny.adapter
           [("x", Sample.int64Binding 7); ("y", Sample.int64Binding 8)]
           [("y", Sample.int64Binding 8); ("x", Sample.int64Binding 7)] ∅).
  - apply perm_swap.
  - repeat constructor; cbn; intuition discriminate.
  - reflexivity.
Defined.

Lemma Eval_no_expression_witness :
  run Tiny.engine
      (Tiny.Eval {| ExprKind := None; Bindings := []; Eval_Container := "" |})
  = Return None
           (Some (statusError {| Code := codes.InvalidArgument;
                                 Message := "No expression.";
                                 Details := [] |}))
  /\ calls Tiny.engine
           (Tiny.Eval {| ExprKind := None; Bindings := [];
                         Eval_Container := "" |})
     = [existT _ (NewEnv unit unit unit unit
                    [Container "";
                     Types [test2pb_TestAllTypes; test3pb_TestAllTypes]])].
Proof.
  apply (@Eval_no_expression unit unit unit unit unit unit cel.TypeAdapter
           (fun _ => tt) (fun _ => tt) (fun _ => Tiny.adapter)
           cel.RefValueToValue cel.ValueToRefValue Tiny.engine
           {| ExprKind := None; Bindings := []; Eval_Container := "" |}).
  reflexivity.
Defined.

Lemma Eval_program_error_witness :
  run (Sample.engine None (Some (errorString "no such overload")) (None, None))
      (Sample.Eval (Sample.evalRequest []))
  = Return None (Some (errorString "no such overload"))
  /\ calls (Sample.engine None (Some (errorString "no such overload"))
                          (None, None))
           (Sample.Eval (Sample.evalRequest []))
     = [existT _ (NewEnv unit unit unit Sample.Issues
                    [Container "";
                     Types [test2pb_TestAllTypes; test3pb_TestAllTypes]]);
        existT _ (Env_Program unit Sample.Issues tt tt)].
Proof.
  apply (@Eval_program_error unit unit unit Sample.Issues unit unit
           cel.TypeAdapter (fun _ => tt) (fun _ => tt) (fun _ => Tiny.adapter)
           cel.RefValueToValue cel.ValueToRefValue
           (Sample.engine None (Some (errorString "no such overload"))
                          (None, None))
           (Sample.evalRequest [])
           (EvalRequest_CheckedExpr unit (Some tt)) tt
           (errorString "no such overload"));
    reflexivity.
Defined.

Lemma Eval_binding_error_witness :
  run (Sample.engine None None (None, None))
      (Sample.Eval
         (Sample.evalRequest
            [("x", Sample.int64Binding 7);
             ("y", {| Kind := Some (ExprValue_Value None) |});
             ("z", Sample.int64Binding 9)]))
  = Return None
           (Some (errorString
                    "can't convert binding y: ConversionError: absent value"))
  /\ calls (Sample.engine None None (None, None))
           (Sample.Eval
              (Sample.evalRequest
                 [("x", Sample.int64Binding 7);
                  ("y", {| Kind := Some (ExprValue_Value None) |});
                  ("z", Sample.int64Binding 9)]))
     = [existT _ (NewEnv unit unit unit Sample.Issues
                    [Container "";
                     Types [test2pb_TestAllTypes; test3pb_TestAllTypes]]);
        existT _ (Env_Program unit Sample.Issues tt tt)].
Proof.
  apply (@Eval_binding_error unit unit unit Sample.Issues unit unit
           cel.TypeAdapter (fun _ => tt) (fun _ => tt) (fun _ => Tiny.adapter)
           cel.RefValueToValue cel.ValueToRefValue
           (Sample.engine None None (None, None))
           (Sample.evalRequest
              [("x", Sample.int64Binding 7);
               ("y", {| Kind := Some (ExprValue_Value None) |});
               ("z", Sample.int64Binding 9)])
           (EvalRequest_CheckedExpr unit (Some tt)) tt
           [("x", Sample.int64Binding 7)] [("z", Sample.int64Binding 9)]
           "y" {| Kind := Some (ExprValue_Value None) |} None
           (cel.ConversionError "absent value"));
    try reflexivity.
  repeat constructor. eexists. reflexivity.
Defined.

Lemma Eval_binding_without_kind_witness :
  exists err : error,
    run (Sample.engine None None (None, None))
        (Sample.Eval
           (Sample.evalRequest
              [("x", Sample.int64Binding 7); ("y", {| Kind := None |})]))
    = Return None (Some err)
    /\ Error err
       = "can't convert binding y: rpc error: code = InvalidArgument desc = unknown ExprValue kind"
    /\ Code (status.Convert err) = codes.Unknown.
Proof.
  apply (@Eval_binding_without_kind unit unit unit Sample.Issues unit unit
           cel.TypeAdapter (fun _ => tt) (fun _ => tt) (fun _ => Tiny.adapter)
           cel.RefValueToValue cel.ValueToRefValue
           (Sample.engine None None (None, None))
           (Sample.evalRequest
              [("x", Sample.int64Binding 7); ("y", {| Kind := None |})])
           (EvalRequest_CheckedExpr unit (Some tt)) tt
           [("x", Sample.int64Binding 7)] [] "y");
    try reflexivity.
  repeat constructor. eexists. reflexivity.
Defined.

Lemma Eval_unknown_result_witness :
  run (Sample.engine None None (Some (types.Unknown [1; 3; 5]), None))
      (Sample.Eval (Sample.evalRequest [("x", Sample.int64Binding 7)]))
  = Return (Some {| Result := Some (unknownSetValue [1; 3; 5]);
                    Eval_Issues := [] |})
           None.
Proof.
  apply (@Eval_unknown_result unit unit unit Sample.Issues unit unit
           cel.TypeAdapter (fun _ => tt) (fun _ => tt) (fun _ => Tiny.adapter)
           cel.RefValueToValue cel.ValueToRefValue
           (Sample.engine None None (Some (types.Unknown [1; 3; 5]), None))
           (Sample.evalRequest [("x", Sample.int64Binding 7)])
           (EvalRequest_CheckedExpr unit (Some tt)) tt
           (<["x" := Some (IntVal 7)]> ∅) [1; 3; 5]);
    reflexivity.
Defined.

Lemma Eval_result_error_witness :
  run (Sample.engine None None (Some (ErrVal "no such key"), None))
      (Sample.Eval (Sample.evalRequest [("x", Sample.int64Binding 7)]))
  = Return None
           (Some (errorString "con't convert result: ConversionError: error")).
Proof.
  apply (@Eval_result_error unit unit unit Sample.Issues unit unit
           cel.TypeAdapter (fun _ => tt) (fun _ => tt) (fun _ => Tiny.adapter)
           cel.RefValueToValue cel.ValueToRefValue
           (Sample.engine None None (Some (ErrVal "no such key"), None))
           (Sample.evalRequest [("x", Sample.int64Binding 7)])
           (EvalRequest_CheckedExpr unit (Some tt)) tt
           (<["x" := Some (IntVal 7)]> ∅) (ErrVal "no such key") None
           (cel.ConversionError "error"));
    reflexivity.
Defined.

Lemma Eval_value_result_witness :
  run (Sample.engine None None (Some (IntVal 42), None))
      (Sample.Eval (Sample.evalRequest [("x", Sample.int64Binding 7)]))
  = Return (Some {| Result :=
                      Some {| Kind := Some (ExprValue_Value
                                              (Some (Int64Value 42))) |};
                    Eval_Issues := [] |})
           None.
Proof.
  apply (@Eval_value_result unit unit unit Sample.Issues unit unit
           cel.TypeAdapter (fun _ => tt) (fun _ => tt) (fun _ => Tiny.adapter)
           cel.RefValueToValue cel.ValueToRefValue
           (Sample.engine None None (Some (IntVal 42), None))
           (Sample.evalRequest [("x", Sample.int64Binding 7)])
           (EvalRequest_CheckedExpr unit (Some tt)) tt
           (<["x" := Some (IntVal 7)]> ∅) (IntVal 42) (Some (Int64Value 42)));
    reflexivity.
Defined.
